(** * Price Notifier: the extraction-and-notification pipeline of app.py

    A shallow embedding of [fetch_price], [_twilio_client],
    [_resolve_recipient], [_get_from_number], [send_whatsapp],
    [delayed_whatsapp] and [notify], together with the pieces of the Python
    libraries they lean on (the [re] matcher, [str.strip], [float], the
    [repr] of a float, BeautifulSoup's [find] and [get_text]), and the
    properties of the pipeline stated in the specification.

    Python strings are modelled as [string], a character being a code point
    below 256.  On that range [\d] is exactly [0-9] and [str.isspace] is the
    set given in [isspace]. *)

From Stdlib Require Import ZArith String Ascii List Lia Bool DecimalString.
From stdpp Require Import gmap strings.
Import ListNotations.

Set Warnings "-register-all".

#[local] Arguments String.append !_ _ : simpl nomatch.
#[local] Arguments Ascii.eqb : simpl never.

Open Scope string_scope.
Open Scope Z_scope.

(** ** Characters and strings *)

Module Str.

(** [c.isdigit()] for a code point below 256, which is what [\d] tests. *)
Definition isdigit (c : ascii) : bool :=
  let n := nat_of_ascii c in (48 <=? n)%nat && (n <=? 57)%nat.

(** [c.isspace()] for a code point below 256: TAB, LF, VT, FF, CR, the four
    information separators, SPACE, NEL and NBSP. *)
Definition isspace (c : ascii) : bool :=
  let n := nat_of_ascii c in
  ((9 <=? n)%nat && (n <=? 13)%nat) || ((28 <=? n)%nat && (n <=? 32)%nat)
  || (n =? 133)%nat || (n =? 160)%nat.

Definition comma : ascii := ","%char.
Definition dot : ascii := "."%char.

(** Truth value of a [str]: the empty string is falsy. *)
Definition truthy (s : string) : bool :=
  match s with EmptyString => false | String _ _ => true end.

(** Truth value of an [Optional[str]]: [None] and [""] are falsy. *)
Definition truthy_opt (o : option string) : bool :=
  match o with None => false | Some s => truthy s end.

Fixpoint lstrip (s : string) : string :=
  match s with
  | String c s' => if isspace c then lstrip s' else s
  | EmptyString => EmptyString
  end.

Fixpoint rstrip (s : string) : string :=
  match s with
  | String c s' =>
      match rstrip s' with
      | EmptyString => if isspace c then EmptyString else String c EmptyString
      | r => String c r
      end
  | EmptyString => EmptyString
  end.

(** [s.strip()] *)
Definition strip (s : string) : string := rstrip (lstrip s).

(** [s.replace(old, new)] for a one-character [old]. *)
Fixpoint replace (old : ascii) (new : string) (s : string) : string :=
  match s with
  | String c s' =>
      if Ascii.eqb c old then new ++ replace old new s'
      else String c (replace old new s')
  | EmptyString => EmptyString
  end.

(** [s.startswith(p)] *)
Definition startswith (p s : string) : bool := String.prefix p s.

(** [sub in s] *)
Fixpoint contains (sub s : string) : bool :=
  String.prefix sub s ||
  match s with
  | String _ s' => contains sub s'
  | EmptyString => false
  end.

(** The first [n] characters and what follows them. *)
Fixpoint take (n : nat) (s : string) : string :=
  match n, s with
  | S n', String c s' => String c (take n' s')
  | _, _ => EmptyString
  end.

Fixpoint forallb (p : ascii -> bool) (s : string) : bool :=
  match s with
  | String c s' => p c && forallb p s'
  | EmptyString => true
  end.

Fixpoint existsb (p : ascii -> bool) (s : string) : bool :=
  match s with
  | String c s' => p c || existsb p s'
  | EmptyString => false
  end.

Fixpoint drop_while (p : ascii -> bool) (s : string) : string :=
  match s with
  | String c s' => if p c then drop_while p s' else s
  | EmptyString => EmptyString
  end.

Fixpoint take_while (p : ascii -> bool) (s : string) : string :=
  match s with
  | String c s' => if p c then String c (take_while p s') else EmptyString
  | EmptyString => EmptyString
  end.

End Str.

(** ** The [re] module: a backtracking matcher

    Patterns are built from character sets, concatenation and the greedy
    quantifiers [?], [*] and [+].  The matcher tries the alternatives of a
    quantifier in the order of Python's engine (one more repetition first,
    then the rest of the pattern) and hands what is left of the subject to a
    continuation, so a failing continuation makes it back off. *)

Module Re.

Inductive regex : Type :=
| Chars (p : ascii -> bool)
| Cat (r1 r2 : regex)
| Opt (r : regex)
| Star (r : regex).

Definition Plus (r : regex) : regex := Cat r (Star r).

Section Matcher.
Context {A : Type}.

(** Greedy repetition of [body]; [n] bounds the number of rounds, each of
    which has to consume at least one character. *)
Fixpoint star_loop (body : string -> (string -> option A) -> option A)
    (k : string -> option A) (n : nat) (s : string) : option A :=
  match n with
  | O => k s
  | S n' =>
      match body s (fun s1 =>
               if (String.length s1 <? String.length s)%nat
               then star_loop body k n' s1 else None) with
      | Some x => Some x
      | None => k s
      end
  end.

Fixpoint bt (r : regex) (s : string) (k : string -> option A) {struct r}
    : option A :=
  match r with
  | Chars p =>
      match s with
      | String c s' => if p c then k s' else None
      | EmptyString => None
      end
  | Cat r1 r2 => bt r1 s (fun s1 => bt r2 s1 k)
  | Opt r1 =>
      match bt r1 s k with
      | Some x => Some x
      | None => k s
      end
  | Star r1 => star_loop (bt r1) k (String.length s) s
  end.
End Matcher.

(** A match is the matched text, [group(0)], and the subject after it. *)
Definition match_at (r : regex) (s : string) : option (string * string) :=
  bt r s (fun rest =>
    Some (Str.take (String.length s - String.length rest) s, rest)).

(** The same, refusing the empty match. *)
Definition match_at_nonempty (r : regex) (s : string)
    : option (string * string) :=
  bt r s (fun rest =>
    if (String.length rest <? String.length s)%nat
    then Some (Str.take (String.length s - String.length rest) s, rest)
    else None).

(** [re.search(r, s)]: the match at the leftmost position that has one. *)
Fixpoint search (r : regex) (s : string) : option (string * string) :=
  match match_at r s with
  | Some m => Some m
  | None =>
      match s with
      | String _ s' => search r s'
      | EmptyString => None
      end
  end.

(** The scan that follows an empty match: at the same position only a
    non-empty match is accepted, further right any match is. *)
Definition search_advancing (r : regex) (s : string)
    : option (string * string) :=
  match match_at_nonempty r s with
  | Some m => Some m
  | None =>
      match s with
      | String _ s' => search r s'
      | EmptyString => None
      end
  end.

(** [re.findall(r, s)] for a pattern without groups: the texts of the
    successive non-overlapping matches, left to right. *)
Fixpoint findall_from (n : nat) (r : regex) (advancing : bool) (s : string)
    : list string :=
  match n with
  | O => []
  | S n' =>
      match (if advancing then search_advancing r s else search r s) with
      | None => []
      | Some (m, rest) => m :: findall_from n' r (negb (Str.truthy m)) rest
      end
  end.

Definition findall (r : regex) (s : string) : list string :=
  findall_from (2 * String.length s + 2) r false s.

(** [m.group(0) if m else None] *)
Definition group0 (m : option (string * string)) : option string :=
  option_map fst m.

End Re.

(** The pattern [r"[\d,]+\.?\d*"] of [fetch_price]. *)
Definition digit_or_comma (c : ascii) : bool :=
  Str.isdigit c || Ascii.eqb c Str.comma.

Definition price_pattern : Re.regex :=
  Re.Cat (Re.Plus (Re.Chars digit_or_comma))
    (Re.Cat (Re.Opt (Re.Chars (Ascii.eqb Str.dot)))
            (Re.Star (Re.Chars Str.isdigit))).

(** ** Floats

    The floats of the pipeline are prices read from digits and a target that
    the request model requires to be greater than zero, so they are never
    negative and never NaN: a [pyfloat] is a binary64 value [m * 2^e] with
    [0 <= m] or positive infinity. *)

Inductive pyfloat : Type :=
| Finite (m e : Z)
| Inf.

Module Float.

Definition zero : pyfloat := Finite 0 (-1074).

(** [m1 * 2^e1 <= m2 * 2^e2], both sides scaled to a common exponent. *)
Definition finite_leb (m1 e1 m2 e2 : Z) : bool :=
  let e := Z.min e1 e2 in
  m1 * 2 ^ (e1 - e) <=? m2 * 2 ^ (e2 - e).

(** [x <= y] *)
Definition leb (x y : pyfloat) : bool :=
  match x, y with
  | Finite m1 e1, Finite m2 e2 => finite_leb m1 e1 m2 e2
  | _, Inf => true
  | Inf, Finite _ _ => false
  end.

(** [x == y] *)
Definition eqb (x y : pyfloat) : bool := leb x y && leb y x.

(** [x > y] *)
Definition gtb (x y : pyfloat) : bool := negb (leb x y).

(** [p * 2^a <= q * 2^b] for exponents of either sign. *)
Definition scaled_leb (p a q b : Z) : bool :=
  let e := Z.min a b in p * 2 ^ (a - e) <=? q * 2 ^ (b - e).

(** [floor (log2 (p / q))] for [0 < p] and [0 < q]. *)
Definition ilog2 (p q : Z) : Z :=
  let l := Z.log2 p - Z.log2 q in
  if scaled_leb q l p 0 then l else l - 1.

(** [p / (q * 2^e)] rounded to the nearest integer, ties to even. *)
Definition round_half_even (p q e : Z) : Z :=
  let num := p * 2 ^ Z.max 0 (- e) in
  let den := q * 2 ^ Z.max 0 e in
  let m := num / den in
  let r := num mod den in
  match 2 * r ?= den with
  | Lt => m
  | Gt => m + 1
  | Eq => if Z.even m then m else m + 1
  end.

(** The binary64 value nearest to [p / q], for [0 <= p] and [0 < q]. *)
Definition of_ratio (p q : Z) : pyfloat :=
  if p <=? 0 then zero
  else
    let e := Z.max (ilog2 p q - 52) (-1074) in
    let m := round_half_even p q e in
    let '(m, e) := if m =? 2 ^ 53 then (2 ^ 52, e + 1) else (m, e) in
    if 971 <? e then Inf else Finite m e.

(** The number written by a string of decimal digits. *)
Definition digit_value (c : ascii) : Z := Z.of_nat (nat_of_ascii c) - 48.

Fixpoint decimal_value (acc : Z) (s : string) : Z :=
  match s with
  | String c s' => decimal_value (10 * acc + digit_value c) s'
  | EmptyString => acc
  end.

(** [float(s)] on the strings that reach it here, which hold digits and
    points only (lemma [numeric_alphabet] below): the digits before and
    after the point, at least one digit in all, at most one point.  [None]
    stands for [ValueError].  Signs, exponents, underscores, blanks and the
    words [inf] and [nan], which [float] also reads, are outside this
    alphabet and are answered [None]. *)
Definition of_string (s : string) : option pyfloat :=
  let ip := Str.take_while Str.isdigit s in
  let rest := Str.drop_while Str.isdigit s in
  let parse (fp : string) :=
    if Str.truthy (ip ++ fp)
    then Some (of_ratio (decimal_value 0 (ip ++ fp))
                        (10 ^ Z.of_nat (String.length fp)))
    else None in
  match rest with
  | EmptyString => parse EmptyString
  | String c fp =>
      if Ascii.eqb c Str.dot && Str.forallb Str.isdigit fp
      then parse fp else None
  end.

(** *** [repr] of a float: the shortest digits that read back *)

(** [10^k * q <= p] for [k] of either sign. *)
Definition pow10_leb (k p q : Z) : bool :=
  if 0 <=? k then 10 ^ k * q <=? p else q <=? p * 10 ^ (- k).

Fixpoint ilog10_down (n : nat) (k p q : Z) : Z :=
  match n with
  | O => k
  | S n' => if pow10_leb k p q then k else ilog10_down n' (k - 1) p q
  end.

Fixpoint ilog10_up (n : nat) (k p q : Z) : Z :=
  match n with
  | O => k
  | S n' => if pow10_leb (k + 1) p q then ilog10_up n' (k + 1) p q else k
  end.

(** [floor (log10 (p / q))] for [0 < p] and [0 < q], from an estimate that
    is off by a few units at most. *)
Definition ilog10 (p q : Z) : Z :=
  let k0 := ilog2 p q * 30103 / 100000 in
  ilog10_up 4 (ilog10_down 4 k0 p q) p q.

(** [c * 10^s] as a ratio. *)
Definition decimal_ratio (c s : Z) : Z * Z :=
  if 0 <=? s then (c * 10 ^ s, 1) else (c, 10 ^ (- s)).

Definition reads_back (x : pyfloat) (c s : Z) : bool :=
  let '(p, q) := decimal_ratio c s in eqb (of_ratio p q) x.

(** The [n]-digit decimal [c * 10^s] nearest to [p / q] among those that
    read back as [x], where [k = floor (log10 (p / q))]. *)
Definition nearest_digits (x : pyfloat) (p q k : Z) (n : Z)
    : option (Z * Z) :=
  let s := k - n + 1 in
  let '(num, den) := if 0 <=? s then (p, q * 10 ^ s) else (p * 10 ^ (- s), q) in
  let lo := num / den in
  let r := num mod den in
  let hi := lo + 1 in
  let lo_first :=
    match 2 * r ?= den with
    | Lt => true
    | Gt => false
    | Eq => Z.even lo
    end in
  let try c := if reads_back x c s then Some (c, s) else None in
  match (if lo_first then try lo else try hi) with
  | Some d => Some d
  | None => if lo_first then try hi else try lo
  end.

Fixpoint shortest_from (fuel : nat) (x : pyfloat) (p q k n : Z) : Z * Z :=
  match fuel with
  | O => (0, 0)
  | S fuel' =>
      match nearest_digits x p q k n with
      | Some d => d
      | None => shortest_from fuel' x p q k (n + 1)
      end
  end.

Definition string_of_Z (z : Z) : string :=
  NilZero.string_of_uint (N.to_uint (Z.to_N z)).

Fixpoint zeros (n : nat) : string :=
  match n with
  | O => EmptyString
  | S n' => String "0"%char (zeros n')
  end.

Fixpoint drop (n : nat) (s : string) : string :=
  match n, s with
  | S n', String _ s' => drop n' s'
  | _, _ => s
  end.

Fixpoint strip_trailing_zeros (s : string) : string :=
  match s with
  | String c s' =>
      match strip_trailing_zeros s' with
      | EmptyString =>
          if Ascii.eqb c "0"%char then EmptyString else String c EmptyString
      | r => String c r
      end
  | EmptyString => EmptyString
  end.

(** The digits [d1 d2 ...] and the position of the point: the value is
    [0.d1d2... * 10^decpt]. *)
Definition shortest_digits (m e : Z) : string * Z :=
  let p := m * 2 ^ Z.max 0 e in
  let q := 2 ^ Z.max 0 (- e) in
  let '(c, s) := shortest_from 17 (Finite m e) p q (ilog10 p q) 1 in
  let ds := string_of_Z c in
  (strip_trailing_zeros ds, Z.of_nat (String.length ds) + s).

(** The layout of [repr]: exponent notation when the point would sit more
    than 16 places right or 4 places left of the first digit. *)
Definition layout (ds : string) (decpt : Z) : string :=
  if (decpt <=? -4) || (16 <? decpt) then
    let x := decpt - 1 in
    let mant :=
      match ds with
      | String d EmptyString => ds
      | String d tl => String d (String Str.dot tl)
      | EmptyString => ds
      end in
    let xs := string_of_Z (Z.abs x) in
    mant ++ "e" ++ (if x <? 0 then "-" else "+")
         ++ (if Z.abs x <? 10 then "0" else "") ++ xs
  else if decpt <=? 0 then
    "0." ++ zeros (Z.to_nat (- decpt)) ++ ds
  else if Z.of_nat (String.length ds) <=? decpt then
    ds ++ zeros (Z.to_nat decpt - String.length ds) ++ ".0"
  else
    Str.take (Z.to_nat decpt) ds ++ "." ++ drop (Z.to_nat decpt) ds.

(** [repr(x)], which is also what an f-string writes for [{x}]. *)
Definition repr (x : pyfloat) : string :=
  match x with
  | Inf => "inf"
  | Finite m e =>
      if m <=? 0 then "0.0"
      else let '(ds, decpt) := shortest_digits m e in layout ds decpt
  end.

End Float.

(** ** The parsed page

    [BeautifulSoup(resp.content, "html.parser")] yields a tree of tags and
    strings; the document itself is a tag named [[document]].  The strings
    of the tree are those that [get_text] collects; comments and the like,
    which it skips, are left out. *)

Inductive node : Type :=
| NavigableString (text : string)
| Tag (name : string) (attrs : gmap string string) (contents : list node).

Module Soup.

Definition first_some {A B : Type} (f : A -> option B) : list A -> option B :=
  fix go (l : list A) : option B :=
    match l with
    | [] => None
    | x :: l' =>
        match f x with
        | Some y => Some y
        | None => go l'
        end
    end.

Definition concat_map {A : Type} (f : A -> string) : list A -> string :=
  fix go (l : list A) : string :=
    match l with
    | [] => EmptyString
    | x :: l' => f x ++ go l'
    end.

(** The first tag, in document order from [n] on, whose [id] is [pid]. *)
Fixpoint find_from (pid : string) (n : node) : option node :=
  match n with
  | NavigableString _ => None
  | Tag _ attrs contents =>
      if bool_decide (attrs !! "id" = Some pid) then Some n
      else first_some (find_from pid) contents
  end.

(** [el.find(id=pid)]: the search runs over the descendants of [el]. *)
Definition find (el : node) (pid : string) : option node :=
  match el with
  | NavigableString _ => None
  | Tag _ _ contents => first_some (find_from pid) contents
  end.

(** [el.get_text()]: the strings below [el], joined in document order. *)
Fixpoint get_text (n : node) : string :=
  match n with
  | NavigableString s => s
  | Tag _ _ contents => concat_map get_text contents
  end.

Definition document (contents : list node) : node :=
  Tag "[document]" ∅ contents.

End Soup.

(** ** Exceptions, effects and the outside world *)

Inductive request_error : Type :=
| ConnectionError
| Timeout
| HTTPError (status_code : Z).

Inductive exn : Type :=
| HTTPException (status_code : Z) (detail : string)
| RequestException (e : request_error)
| TwilioRestException (msg : string).

(** What the dispatcher does to the world, in order. *)
Inductive event : Type :=
| Sleep (seconds : Z)
| Create (body from_ to : string).

(** What [requests.get] comes back with. *)
Inductive http_result : Type :=
| Response (status_code : Z) (soup : node)
| Unreachable
| TimedOut.

Record client : Type := Client { account_sid : string; auth_token : string }.

Record world : Type := World {
  (** the environment read by [config(name, default=None)] *)
  environ : gmap string string;
  (** [requests.get(url, headers={"User-Agent": ua}, timeout=20)], the
      content already parsed *)
  http_get : string -> string -> http_result;
  (** [client.messages.create(body=, from_=, to=)]: the message's [sid], or
      the text of the exception the transport raises *)
  transport : client -> string -> string -> string -> string + string
}.

(** A computation raises or returns, and leaves a trace of events. *)
Definition M (A : Type) : Type := ((exn + A) * list event)%type.

Definition ret {A : Type} (a : A) : M A := (inr a, []).
Definition raise {A : Type} (e : exn) : M A := (inl e, []).
Definition emit (ev : event) : M unit := (inr tt, [ev]).

Definition bind {A B : Type} (m : M A) (f : A -> M B) : M B :=
  match m with
  | (inl e, t) => (inl e, t)
  | (inr a, t) => let '(r, t') := f a in (r, (t ++ t')%list)
  end.

Notation "x <- m ;; k" := (bind m (fun x => k))
  (at level 100, m at next level, right associativity).
Notation "m ;;; k" := (bind m (fun _ => k))
  (at level 100, right associativity).

(** A pure step that may raise, run inside [M]. *)
Definition lift {A : Type} (r : exn + A) : M A := (r, []).

Definition outcome {A : Type} (m : M A) : exn + A := fst m.
Definition trace {A : Type} (m : M A) : list event := snd m.

Definition is_create (ev : event) : bool :=
  match ev with Create _ _ _ => true | Sleep _ => false end.

(** The delivery attempts in a trace. *)
Definition deliveries (t : list event) : list event := filter is_create t.

(** [config(name, default=None)] *)
Definition config (w : world) (name : string) : option string :=
  environ w !! name.

(** ** The request and the response *)

Record NotifyRequest : Type := {
  url : string;
  target_price : pyfloat;
  delay_minutes : Z;
  send_to : option string
}.

(** The constraints of the request model: [gt=0], [ge=0], [le=1440]. *)
Definition valid_request (p : NotifyRequest) : Prop :=
  Float.gtb (target_price p) Float.zero = true /\
  0 <= delay_minutes p <= 1440.

Inductive json : Type :=
| JStr (s : string)
| JFloat (x : pyfloat)
| JBool (b : bool).

(** The returned dict, keys in insertion order. *)
Definition response : Type := list (string * json).

Definition get (key : string) (r : response) : option json :=
  option_map snd (List.find (fun kv => String.eqb (fst kv) key) r).

(** ** The functions of app.py *)

Definition credentials_missing : exn :=
  HTTPException 500 "Twilio credentials missing (SID/AUTH).".
Definition recipient_missing : exn :=
  HTTPException 400 "Recipient WhatsApp number missing.".
Definition sender_missing : exn :=
  HTTPException 500 "WhatsApp sender number missing (FROM_WHATSAPP).".
Definition no_price_found : exn :=
  HTTPException 400 "Could not parse price from page.".
Definition unrecognized_format : exn :=
  HTTPException 400 "Price format not recognized.".
Definition parse_failure : exn :=
  HTTPException 400 "Price parse failed.".

Definition _twilio_client (w : world) : exn + client :=
  let sid := config w "SID" in
  let auth := config w "AUTH" in
  match sid, auth with
  | Some sid, Some auth =>
      if negb (Str.truthy sid) || negb (Str.truthy auth)
      then inl credentials_missing
      else inr (Client sid auth)
  | _, _ => inl credentials_missing
  end.

(** [a or b] on optional strings. *)
Definition or_else (a b : option string) : option string :=
  if Str.truthy_opt a then a else b.

Definition _resolve_recipient (w : world) (send_to : option string)
    : exn + string :=
  let to_number := or_else send_to (config w "TO_WHATSAPP") in
  match to_number with
  | Some to_number =>
      if negb (Str.truthy to_number) then inl recipient_missing
      else if negb (Str.startswith "whatsapp:" to_number)
      then inr ("whatsapp:" ++ to_number)
      else inr to_number
  | None => inl recipient_missing
  end.

Definition _get_from_number (w : world) : exn + string :=
  match config w "FROM_WHATSAPP" with
  | Some from_number =>
      if negb (Str.truthy from_number) then inl sender_missing
      else inr from_number
  | None => inl sender_missing
  end.

Definition default_user_agent : string :=
  "Mozilla/5.0 (Windows NT 10.0; Win64; x64) AppleWebKit/537.36 (KHTML, like Gecko) Chrome/120.0.0.0 Safari/537.36".

Definition price_ids : list string :=
  ["priceblock_ourprice"; "priceblock_dealprice"; "priceblock_saleprice"].

(** The [for pid in (...)] loop: [price_text] when the loop is left. *)
Fixpoint price_text_of_ids (soup : node) (pids : list string)
    : option string :=
  match pids with
  | [] => None
  | pid :: pids' =>
      match Soup.find soup pid with
      | Some el =>
          if Str.truthy (Soup.get_text el)
          then Some (Str.strip (Soup.get_text el))
          else price_text_of_ids soup pids'
      | None => price_text_of_ids soup pids'
      end
  end.

(** [price_text] after the fallback scan of the whole text. *)
Definition price_text_of (soup : node) : option string :=
  let price_text := price_text_of_ids soup price_ids in
  if negb (Str.truthy_opt price_text)
  then Re.group0 (Re.search price_pattern (Soup.get_text soup))
  else price_text.

(** From [numbers = re.findall(...)] to the end of [fetch_price]. *)
Definition price_of_text (price_text : string) : exn + pyfloat :=
  let numbers := Re.findall price_pattern price_text in
  match numbers with
  | [] => inl unrecognized_format
  | n0 :: _ =>
      let numeric := Str.replace Str.comma "" n0 in
      match Float.of_string numeric with
      | Some x => inr x
      | None => inl parse_failure
      end
  end.

(** [fetch_price] from the parsing of the page on. *)
Definition price_of_soup (soup : node) : exn + pyfloat :=
  match price_text_of soup with
  | Some price_text =>
      if negb (Str.truthy price_text) then inl no_price_found
      else price_of_text price_text
  | None => inl no_price_found
  end.

(** [resp.raise_for_status()] *)
Definition raise_for_status (status_code : Z) : exn + unit :=
  if (400 <=? status_code) && (status_code <? 600)
  then inl (RequestException (HTTPError status_code))
  else inr tt.

Definition fetch_price (w : world) (url : string) : exn + pyfloat :=
  let user_agent := default default_user_agent (config w "USER_AGENT") in
  match http_get w url user_agent with
  | Unreachable => inl (RequestException ConnectionError)
  | TimedOut => inl (RequestException Timeout)
  | Response status_code soup =>
      match raise_for_status status_code with
      | inl e => inl e
      | inr _ => price_of_soup soup
      end
  end.

Definition send_whatsapp (w : world) (body : string)
    (to_override : option string) : M string :=
  client <- lift (_twilio_client w) ;;
  to_number <- lift (_resolve_recipient w to_override) ;;
  from_number <- lift (_get_from_number w) ;;
  emit (Create body from_number to_number) ;;;
  match transport w client body from_number to_number with
  | inr sid => ret sid
  | inl msg => raise (TwilioRestException msg)
  end.

Definition delayed_whatsapp (w : world) (body : string) (delay_minutes : Z)
    (to_override : option string) : M string :=
  (if delay_minutes =? 0 then ret tt else emit (Sleep (delay_minutes * 60))) ;;;
  send_whatsapp w body to_override.

Definition nl : string := String (ascii_of_nat 10) EmptyString.

Definition message_body (url : string) (price target : pyfloat)
    (triggered : bool) : string :=
  "Price alert for " ++ url ++ nl ++
  "Current price: " ++ Float.repr price ++ nl ++
  "Target: " ++ Float.repr target ++ nl ++
  "Triggered: " ++ (if triggered then "yes" else "no").

Definition notify (w : world) (payload : NotifyRequest) : M response :=
  price <- lift (fetch_price w (url payload)) ;;
  let triggered := Float.leb price (target_price payload) in
  let body := message_body (url payload) price (target_price payload)
                triggered in
  if triggered then
    sid <- delayed_whatsapp w body (delay_minutes payload) (send_to payload) ;;
    ret [("status", JStr "sent"); ("sid", JStr sid);
         ("price", JFloat price); ("triggered", JBool true)]
  else
    ret [("status", JStr "not_triggered");
         ("price", JFloat price); ("triggered", JBool false)].

(** ** Vocabulary of the properties *)

(** *** Tokens of the price pattern *)

(** What [\.?] leaves of the subject. *)
Definition skip_dot (s : string) : string :=
  match s with
  | String c r => if Ascii.eqb Str.dot c then r else s
  | EmptyString => s
  end.

(** What a match of the price pattern starting at [s] leaves of [s]. *)
Definition token_rest (s : string) : string :=
  Str.drop_while Str.isdigit (skip_dot (Str.drop_while digit_or_comma s)).

(** The matched text, from its three parts. *)
Definition token_text (s : string) : string :=
  let r1 := Str.drop_while digit_or_comma s in
  Str.take_while digit_or_comma s
  ++ (match r1 with
      | String c _ => if Ascii.eqb Str.dot c then "." else ""
      | EmptyString => ""
      end)
  ++ Str.take_while Str.isdigit (skip_dot r1).

(** The shape of a token: digits and commas, at least one; then either
    nothing, or a point and digits. *)
Definition token_shape (tok : string) : Prop :=
  exists a b c,
    tok = a ++ b ++ c /\
    Str.truthy a = true /\
    Str.forallb digit_or_comma a = true /\
    Str.forallb Str.isdigit c = true /\
    ((b = "" /\ c = "") \/ b = ".").

(** *** The element lookup *)

(** The element at which the [for pid in (...)] loop breaks. *)
Fixpoint matched_element (soup : node) (pids : list string) : option node :=
  match pids with
  | [] => None
  | pid :: pids' =>
      match Soup.find soup pid with
      | Some el =>
          if Str.truthy (Soup.get_text el) then Some el
          else matched_element soup pids'
      | None => matched_element soup pids'
      end
  end.

(** The identifier [pid] does not stop the loop: no element carries it, or
    the element has no text. *)
Definition passed_over (soup : node) (pid : string) : Prop :=
  match Soup.find soup pid with
  | Some el => Str.truthy (Soup.get_text el) = false
  | None => True
  end.

(** The page-wide scan: [match.group(0) if match else None]. *)
Definition page_scan (soup : node) : option string :=
  Re.group0 (Re.search price_pattern (Soup.get_text soup)).

(** *** The two responses and the branch that dispatches *)

Definition sent_response (sid : string) (price : pyfloat) : response :=
  [("status", JStr "sent"); ("sid", JStr sid);
   ("price", JFloat price); ("triggered", JBool true)].

Definition not_triggered_response (price : pyfloat) : response :=
  [("status", JStr "not_triggered");
   ("price", JFloat price); ("triggered", JBool false)].

(** The [if triggered:] branch of [notify]. *)
Definition dispatch_branch (w : world) (p : NotifyRequest) (price : pyfloat)
    : M response :=
  sid <- delayed_whatsapp w
           (message_body (url p) price (target_price p) true)
           (delay_minutes p) (send_to p) ;;
  ret (sent_response sid price).

(** The user agent [fetch_price] sends. *)
Definition user_agent (w : world) : string :=
  default default_user_agent (config w "USER_AGENT").

(** The suspension [delayed_whatsapp] asks for. *)
Definition suspension (delay_minutes : Z) : list event :=
  if delay_minutes =? 0 then [] else [Sleep (delay_minutes * 60)].

(** [HTTPError] is raised for the statuses 400 to 599. *)
Definition error_status (status_code : Z) : Prop :=
  400 <= status_code < 600.

(** A status outside 200 to 299. *)
Definition non_success_status (status_code : Z) : Prop :=
  ~ (200 <= status_code < 300).

(** The exceptions the program raises itself. *)
Definition own_errors : list exn :=
  [credentials_missing; recipient_missing; sender_missing;
   no_price_found; unrecognized_format; parse_failure].

(** Every part of the configuration that a delivery needs is there. *)
Definition configured (w : world) (to_override : option string)
    (c : client) (from_number to_number : string) : Prop :=
  _twilio_client w = inr c /\
  _resolve_recipient w to_override = inr to_number /\
  _get_from_number w = inr from_number.

(** [a or b], the recipient before the prefix is looked at. *)
Definition chosen_recipient (w : world) (send_to : option string)
    : option string :=
  or_else send_to (config w "TO_WHATSAPP").

(** *** Pages, environments and worlds used as examples *)

Definition price_span (pid text : string) : node :=
  Tag "span" {["id" := pid]} [NavigableString text].

Definition page (contents : list node) : node :=
  Soup.document [Tag "html" ∅ [Tag "body" ∅ contents]].

(** A recognised element next to other numeric text. *)
Definition element_page : node :=
  page [NavigableString "Only 3 left ";
        price_span "priceblock_dealprice" " $19.99 "].

(** No recognised element, a price in the running text. *)
Definition plain_page : node :=
  page [NavigableString "Now 1,234.50 only"].

(** A blank first-priority element, and a lower-priority one with a price. *)
Definition blank_page : node :=
  page [price_span "priceblock_ourprice" " ";
        NavigableString "Rated 4 stars ";
        price_span "priceblock_dealprice" "$5.00"].

(** The first-priority element reads "$19.99", after another price. *)
Definition sale_page : node :=
  page [NavigableString "Was $25.00 ";
        price_span "priceblock_ourprice" "$19.99"].

Definition no_price_page : node := page [NavigableString "Sold out"].

Definition no_digits_page : node :=
  page [price_span "priceblock_ourprice" "N/A"].

Definition greeting_page : node := page [NavigableString "Hello, world"].

Definition full_environ : gmap string string :=
  <["SID" := "AC1"]> (<["AUTH" := "secret"]>
  (<["FROM_WHATSAPP" := "whatsapp:+100"]> (<["TO_WHATSAPP" := "+200"]> ∅))).

(** Credentials and sender, no default recipient. *)
Definition no_recipient_environ : gmap string string :=
  <["SID" := "AC1"]> (<["AUTH" := "secret"]>
  (<["FROM_WHATSAPP" := "whatsapp:+100"]> ∅)).

(** A world whose every page is [r] and whose transport accepts. *)
Definition world_of (env : gmap string string) (r : http_result) : world :=
  World env (fun _ _ => r) (fun _ _ _ _ => inr "SM1").

(** A world whose transport refuses every message. *)
Definition refusing_world (env : gmap string string) (r : http_result)
    : world :=
  World env (fun _ _ => r) (fun _ _ _ _ => inl "HTTP 401").

Definition request (target : pyfloat) (delay : Z) (to : option string)
    : NotifyRequest :=
  {| url := "https://example.test/item"; target_price := target;
     delay_minutes := delay; send_to := to |}.

(** The floats [20.0], [19.99] and [4.0]. *)
Definition f20 : pyfloat := Finite 5629499534213120 (-48).
Definition f19_99 : pyfloat := Finite 5626684784446013 (-48).
Definition f4 : pyfloat := Finite 4503599627370496 (-50).

(** *** The claims that the code does not meet, as they are stated *)

(** The first identifier whose element has text always supplies the
    candidate (its text, stripped or not), so the page is scanned only when
    no identifier matches.  [has_text] says what counts as having text:
    being non-empty, or being non-empty once stripped. *)
Definition element_always_supplies_candidate (has_text : string -> bool)
    : Prop :=
  forall (soup : node) (before after : list string) (pid : string)
         (el : node),
    price_ids = (before ++ pid :: after)%list ->
    Forall (fun q =>
              match Soup.find soup q with
              | Some e => has_text (Soup.get_text e) = false
              | None => True
              end) before ->
    Soup.find soup pid = Some el ->
    has_text (Soup.get_text el) = true ->
    price_text_of soup = Some (Soup.get_text el) \/
    price_text_of soup = Some (Str.strip (Soup.get_text el)).

(** Parsing fails exactly when the first token is made of commas only. *)
Definition parse_fails_only_on_commas : Prop :=
  forall (price_text tok : string) (more : list string),
    Re.findall price_pattern price_text = tok :: more ->
    (Str.existsb Str.isdigit tok = true ->
     exists x, price_of_text price_text = inr x) /\
    (price_of_text price_text = inl parse_failure <->
     Str.forallb (Ascii.eqb Str.comma) tok = true).

(** A fetch that fails: no answer, no answer in time, or an answer whose
    status is not a success. *)
Definition fetch_fails (r : http_result) : Prop :=
  match r with
  | Response status_code _ => non_success_status status_code
  | Unreachable | TimedOut => True
  end.

(** Every failed fetch surfaces as a fetch error of [notify]. *)
Definition every_failed_fetch_surfaces : Prop :=
  forall (w : world) (p : NotifyRequest),
    fetch_fails (http_get w (url p) (user_agent w)) ->
    exists e, notify w p = (inl (RequestException e), []).

(** The override when present, else the default; with neither, every
    dispatch fails with "recipient missing" and no transport call; the
    resolved address starts with the prefix, added exactly when absent. *)
Definition recipient_resolution_as_stated : Prop :=
  forall (w : world) (body : string) (delay : Z)
         (to_override : option string),
    (Str.truthy_opt to_override = true ->
     chosen_recipient w to_override = to_override) /\
    (Str.truthy_opt to_override = false ->
     chosen_recipient w to_override = config w "TO_WHATSAPP") /\
    (Str.truthy_opt (chosen_recipient w to_override) = false ->
     outcome (delayed_whatsapp w body delay to_override)
       = inl recipient_missing /\
     deliveries (trace (delayed_whatsapp w body delay to_override)) = []) /\
    (forall t : string,
       chosen_recipient w to_override = Some t -> Str.truthy t = true ->
       exists r,
         _resolve_recipient w to_override = inr r /\
         Str.startswith "whatsapp:" r = true /\
         (Str.startswith "whatsapp:" t = true -> r = t) /\
         (Str.startswith "whatsapp:" t = false -> r = "whatsapp:" ++ t)).

(** Every dispatch sleeps for [delay * 60] seconds when the delay is
    positive, not at all when it is zero, and then makes exactly one
    delivery call. *)
Definition exactly_one_delivery_per_dispatch : Prop :=
  forall (w : world) (body : string) (delay : Z)
         (to_override : option string),
    0 <= delay <= 1440 ->
    exists from_number to_number,
      trace (delayed_whatsapp w body delay to_override) =
      ((if 0 <? delay then [Sleep (delay * 60)] else [])
       ++ [Create body from_number to_number])%list.

(** *** Further vocabulary *)

(** What follows a run of digits and commas ends the token there: nothing,
    or a character that is no digit, no comma and no point. *)
Definition breaks_token (rest : string) : bool :=
  match rest with
  | String h _ => negb (digit_or_comma h) && negb (Ascii.eqb h Str.dot)
  | EmptyString => true
  end.

(** What [fetch_price] does with the first token of the candidate. *)
Definition parse_token (tok : string) : exn + pyfloat :=
  match Float.of_string (Str.replace Str.comma "" tok) with
  | Some x => inr x
  | None => inl parse_failure
  end.

(** The float a whole number is read as. *)
Definition whole (n : Z) : pyfloat := Float.of_ratio n 1.

(** The errors of the three configuration checks of [send_whatsapp]. *)
Definition configuration_errors : list exn :=
  [credentials_missing; recipient_missing; sender_missing].



(** * Properties *)

(** ** Strings *)

Module StrFacts.
Import Str.

Lemma length_app (a b : string) :
  String.length (a ++ b) = (String.length a + String.length b)%nat.
Proof. induction a as [|c a IH]; simpl; [reflexivity | now rewrite IH]. Qed.

Lemma app_nil_r (a : string) : a ++ "" = a.
Proof. induction a as [|c a IH]; simpl; [reflexivity | now rewrite IH]. Qed.

Lemma app_assoc (a b c : string) : (a ++ b) ++ c = a ++ b ++ c.
Proof. induction a as [|x a IH]; simpl; [reflexivity | now rewrite IH]. Qed.

Lemma take_app (a r : string) :
  take (String.length (a ++ r) - String.length r) (a ++ r) = a.
Proof.
  rewrite length_app.
  replace (String.length a + String.length r - String.length r)%nat
    with (String.length a) by lia.
  induction a as [|c a IH]; simpl.
  - destruct r; reflexivity.
  - now rewrite IH.
Qed.

Lemma take_drop_while (p : ascii -> bool) (s : string) :
  take_while p s ++ drop_while p s = s.
Proof.
  induction s as [|c s IH]; simpl; [reflexivity |].
  destruct (p c); simpl; [now rewrite IH | reflexivity].
Qed.

Lemma forallb_take_while (p : ascii -> bool) (s : string) :
  forallb p (take_while p s) = true.
Proof.
  induction s as [|c s IH]; simpl; [reflexivity |].
  destruct (p c) eqn:E; simpl; [now rewrite E | reflexivity].
Qed.

Lemma forallb_app (p : ascii -> bool) (a b : string) :
  forallb p (a ++ b) = forallb p a && forallb p b.
Proof.
  induction a as [|c a IH]; simpl; [reflexivity |].
  now rewrite IH, andb_assoc.
Qed.

Lemma existsb_app (p : ascii -> bool) (a b : string) :
  existsb p (a ++ b) = existsb p a || existsb p b.
Proof.
  induction a as [|c a IH]; simpl; [reflexivity |].
  now rewrite IH, orb_assoc.
Qed.

(** The head of what [drop_while] leaves fails the test. *)
Lemma drop_while_head (p : ascii -> bool) (s : string) (c : ascii)
    (r : string) :
  drop_while p s = String c r -> p c = false.
Proof.
  induction s as [|d s IH]; simpl; [discriminate |].
  destruct (p d) eqn:E; [exact IH |].
  intros H. injection H as -> _. exact E.
Qed.

Lemma take_while_all (p : ascii -> bool) (s : string) :
  forallb p s = true -> take_while p s = s /\ drop_while p s = "".
Proof.
  induction s as [|c s IH]; simpl; [auto |].
  destruct (p c); simpl; [| discriminate].
  intros H. destruct (IH H) as [-> ->]. auto.
Qed.

Lemma take_while_stop (p : ascii -> bool) (a : string) (c : ascii)
    (r : string) :
  forallb p a = true -> p c = false ->
  take_while p (a ++ String c r) = a /\
  drop_while p (a ++ String c r) = String c r.
Proof.
  intros Ha Hc. induction a as [|d a IH]; simpl in *.
  - now rewrite Hc.
  - apply andb_true_iff in Ha as [Hd Ha]. rewrite Hd.
    destruct (IH Ha) as [-> ->]. auto.
Qed.

Lemma truthy_app (a b : string) : truthy (a ++ b) = truthy a || truthy b.
Proof. destruct a; reflexivity. Qed.

Lemma truthy_false (s : string) : truthy s = false <-> s = "".
Proof. destruct s; simpl; split; congruence. Qed.

(** A blank string strips to nothing, and only a blank string does. *)
Lemma lstrip_blank (s : string) : forallb isspace s = true -> lstrip s = "".
Proof.
  induction s as [|c s IH]; simpl; [reflexivity |].
  destruct (isspace c); simpl; [exact IH | discriminate].
Qed.

Lemma strip_blank (s : string) : forallb isspace s = true -> strip s = "".
Proof. intros H. unfold strip. now rewrite lstrip_blank. Qed.

Lemma rstrip_empty (s : string) : rstrip s = "" -> forallb isspace s = true.
Proof.
  induction s as [|c s IH]; simpl; [reflexivity |].
  destruct (rstrip s) eqn:E.
  - destruct (isspace c); [intros _; now apply IH | discriminate].
  - discriminate.
Qed.

Lemma lstrip_spec (s : string) :
  exists a, s = a ++ lstrip s /\ forallb isspace a = true.
Proof.
  induction s as [|c s [a [Ha Hb]]]; simpl.
  - exists "". auto.
  - destruct (isspace c) eqn:E.
    + exists (String c a). simpl. rewrite E, Hb. split; [congruence | reflexivity].
    + exists "". auto.
Qed.

Lemma strip_empty_blank (s : string) :
  strip s = "" -> forallb isspace s = true.
Proof.
  unfold strip. intros H. apply rstrip_empty in H.
  destruct (lstrip_spec s) as [a [Ha Hb]].
  rewrite Ha, forallb_app, Hb, H. reflexivity.
Qed.

(** Removing the commas keeps every other character in place. *)
Lemma replace_app (old : ascii) (new a b : string) :
  replace old new (a ++ b) = replace old new a ++ replace old new b.
Proof.
  induction a as [|c a IH]; simpl; [reflexivity |].
  destruct (Ascii.eqb c old); rewrite IH; [now rewrite app_assoc | reflexivity].
Qed.

Lemma replace_absent (old : ascii) (new s : string) :
  existsb (fun c => Ascii.eqb c old) s = false -> replace old new s = s.
Proof.
  induction s as [|c s IH]; simpl; [reflexivity |].
  destruct (Ascii.eqb c old); simpl; [discriminate |].
  intros H. now rewrite IH.
Qed.

Lemma contains_app_r (sub a b : string) :
  contains sub b = true -> contains sub (a ++ b) = true.
Proof.
  intros H. induction a as [|c a IH]; [exact H |].
  cbn [String.append contains]. rewrite IH. apply orb_true_r.
Qed.

End StrFacts.

(** ** The matcher on the price pattern *)

Module ReFacts.
Import Str Re StrFacts.

(** With a continuation that never fails, a greedy star over a character
    set takes every character it can and never backs off. *)
Lemma star_loop_chars {A : Type} (p : ascii -> bool)
    (k : string -> option A) (n : nat) (s : string) :
  (String.length s <= n)%nat ->
  (forall s', k s' <> None) ->
  star_loop (bt (Chars p)) k n s = k (drop_while p s).
Proof.
  intros Hlen Hk. revert s Hlen.
  induction n as [|n IH]; intros s Hlen.
  - destruct s; simpl in *; [reflexivity | lia].
  - destruct s as [|c s]; simpl; [reflexivity |].
    destruct (p c); [| reflexivity].
    replace (String.length s <? S (String.length s))%nat with true
      by (symmetry; apply Nat.ltb_lt; lia).
    simpl in Hlen. rewrite IH by lia.
    destruct (k (drop_while p s)) eqn:E; [reflexivity |].
    now apply Hk in E.
Qed.

Lemma bt_star_chars {A : Type} (p : ascii -> bool)
    (k : string -> option A) (s : string) :
  (forall s', k s' <> None) ->
  bt (Star (Chars p)) s k = k (drop_while p s).
Proof. intros Hk. simpl. now apply star_loop_chars. Qed.

Lemma bt_opt_chars {A : Type} (k : string -> option A) (s : string) :
  (forall s', k s' <> None) ->
  bt (Opt (Chars (Ascii.eqb dot))) s k = k (skip_dot s).
Proof.
  intros Hk. destruct s as [|c r]; simpl; [reflexivity |].
  destruct (Ascii.eqb dot c); [| reflexivity].
  destruct (k r) eqn:E; [reflexivity | now apply Hk in E].
Qed.

Lemma token_split (s : string) : token_text s ++ token_rest s = s.
Proof.
  unfold token_text, token_rest.
  rewrite <- (take_drop_while digit_or_comma s) at 5.
  rewrite !app_assoc. f_equal.
  destruct (drop_while digit_or_comma s) as [|c r] eqn:E; simpl.
  - reflexivity.
  - destruct (Ascii.eqb dot c) eqn:Ec.
    + apply Ascii.eqb_eq in Ec as <-. simpl. f_equal.
      apply take_drop_while.
    + apply (take_drop_while isdigit (String c r)).
Qed.

(** A match of the price pattern starts on a digit or a comma and then
    runs as far as the three parts of the pattern go. *)
Lemma match_at_price (s : string) :
  match_at price_pattern s =
  match s with
  | String c _ =>
      if digit_or_comma c then Some (token_text s, token_rest s) else None
  | EmptyString => None
  end.
Proof.
  unfold match_at, price_pattern, Plus.
  set (K := fun rest : string =>
    Some (take (String.length s - String.length rest) s, rest)).
  assert (HK : forall s', K s' <> None) by (intros s'; discriminate).
  set (K3 := fun s3 : string => bt (Star (Chars isdigit)) s3 K).
  assert (H3 : forall s', K3 s' = K (drop_while isdigit s'))
    by (intros s'; now apply bt_star_chars).
  assert (HK3 : forall s', K3 s' <> None) by (intros s'; now rewrite H3).
  set (K2 := fun s2 : string => bt (Opt (Chars (Ascii.eqb dot))) s2 K3).
  assert (H2 : forall s', K2 s' = K3 (skip_dot s'))
    by (intros s'; now apply bt_opt_chars).
  assert (HK2 : forall s', K2 s' <> None) by (intros s'; now rewrite H2).
  change (bt (Cat (Cat (Chars digit_or_comma) (Star (Chars digit_or_comma)))
           (Cat (Opt (Chars (Ascii.eqb dot))) (Star (Chars isdigit)))) s K)
    with (bt (Chars digit_or_comma) s
            (fun s1 => bt (Star (Chars digit_or_comma)) s1 K2)).
  destruct s as [|c s']; [reflexivity |].
  cbn [bt]. destruct (digit_or_comma c) eqn:Ec; [| reflexivity].
  etransitivity;
    [apply (star_loop_chars digit_or_comma K2 _ s' (Nat.le_refl _) HK2) |].
  rewrite H2, H3. unfold K.
  assert (Hrest : drop_while isdigit (skip_dot (drop_while digit_or_comma s'))
                  = token_rest (String c s')).
  { unfold token_rest. cbn [drop_while]. now rewrite Ec. }
  rewrite Hrest.
  rewrite <- (token_split (String c s')) at 1 3.
  now rewrite take_app.
Qed.

Lemma isdigit_digit_or_comma (c : ascii) :
  isdigit c = true -> digit_or_comma c = true.
Proof. unfold digit_or_comma. now intros ->. Qed.

Lemma match_at_shape (s tok rest : string) :
  match_at price_pattern s = Some (tok, rest) ->
  s = tok ++ rest /\ token_shape tok.
Proof.
  rewrite match_at_price. destruct s as [|c s']; [discriminate |].
  destruct (digit_or_comma c) eqn:Ec; [| discriminate].
  intros H. injection H as <- <-. split; [now rewrite token_split |].
  unfold token_text.
  exists (take_while digit_or_comma (String c s')).
  eexists. eexists. split; [reflexivity |].
  split; [cbn [take_while]; now rewrite Ec |].
  split; [apply forallb_take_while |].
  split; [apply forallb_take_while |].
  destruct (drop_while digit_or_comma (String c s')) as [|d r] eqn:E.
  - left. auto.
  - destruct (Ascii.eqb dot d) eqn:Ed; [now right |].
    left. split; [reflexivity |].
    cbn [skip_dot]. rewrite Ed. cbn [take_while].
    apply drop_while_head in E.
    destruct (isdigit d) eqn:Edig; [| reflexivity].
    apply isdigit_digit_or_comma in Edig. congruence.
Qed.

(** [search] finds the match at the first digit or comma of the subject. *)
Lemma search_price (s : string) :
  search price_pattern s =
  match_at price_pattern (drop_while (fun c => negb (digit_or_comma c)) s).
Proof.
  induction s as [|c s IH]; [reflexivity |].
  cbn [search drop_while]. rewrite match_at_price.
  destruct (digit_or_comma c) eqn:Ec; cbn [negb].
  - rewrite match_at_price, Ec. reflexivity.
  - exact IH.
Qed.

Lemma search_price_none (s : string) :
  search price_pattern s = None <-> existsb digit_or_comma s = false.
Proof.
  rewrite search_price.
  induction s as [|c s IH]; cbn [drop_while existsb].
  - rewrite match_at_price. tauto.
  - destruct (digit_or_comma c) eqn:Ec; cbn [negb orb].
    + rewrite match_at_price, Ec. split; discriminate.
    + exact IH.
Qed.

(** The match found by [search] is the leftmost: nothing before it could
    start one. *)
Lemma search_price_some (s tok rest : string) :
  search price_pattern s = Some (tok, rest) ->
  exists pre,
    s = pre ++ tok ++ rest /\
    existsb digit_or_comma pre = false /\
    token_shape tok.
Proof.
  rewrite search_price. intros H.
  apply match_at_shape in H as [Hs Hshape].
  exists (take_while (fun c => negb (digit_or_comma c)) s).
  split; [now rewrite <- Hs, take_drop_while |].
  split; [| exact Hshape].
  clear. induction s as [|c s IH]; [reflexivity |].
  cbn [take_while]. destruct (digit_or_comma c) eqn:Ec; cbn [negb existsb].
  - reflexivity.
  - now rewrite Ec.
Qed.

(** [findall] starts with the match of [search], and is empty when there is
    none. *)
Lemma findall_head (r : regex) (s : string) :
  findall r s =
  match search r s with
  | None => []
  | Some (m, rest) =>
      m :: findall_from (2 * String.length s + 1) r (negb (truthy m)) rest
  end.
Proof.
  unfold findall.
  replace (2 * String.length s + 2)%nat
    with (S (2 * String.length s + 1)) by lia.
  reflexivity.
Qed.

Lemma findall_price_nil (s : string) :
  findall price_pattern s = [] <-> existsb digit_or_comma s = false.
Proof.
  rewrite findall_head, <- search_price_none.
  destruct (search price_pattern s) as [[m rest]|]; split; congruence.
Qed.

Lemma findall_price_cons (s tok : string) (more : list string) :
  findall price_pattern s = tok :: more ->
  exists rest, search price_pattern s = Some (tok, rest).
Proof.
  rewrite findall_head.
  destruct (search price_pattern s) as [[m rest]|]; [| discriminate].
  intros H. injection H as -> _. now exists rest.
Qed.

Lemma findall_price_shape (s tok : string) (more : list string) :
  findall price_pattern s = tok :: more -> token_shape tok.
Proof.
  intros H. apply findall_price_cons in H as [rest H].
  apply search_price_some in H as (pre & _ & _ & Hshape). exact Hshape.
Qed.

End ReFacts.

(** ** Reading a token as a float *)

Module FloatFacts.
Import Str StrFacts ReFacts.

Lemma leb_refl (x : pyfloat) : Float.leb x x = true.
Proof.
  destruct x as [m e|]; [| reflexivity].
  unfold Float.leb, Float.finite_leb.
  rewrite Z.min_id, Z.sub_diag. apply Z.leb_refl.
Qed.

Lemma eqb_leb (x y : pyfloat) : Float.eqb x y = true -> Float.leb x y = true.
Proof. unfold Float.eqb. intros H. now apply andb_true_iff in H. Qed.

Lemma gtb_leb (x y : pyfloat) :
  Float.gtb x y = true <-> Float.leb x y = false.
Proof. unfold Float.gtb. destruct (Float.leb x y); simpl; split; congruence. Qed.

(** [float] reads digits, a point, digits exactly when there is a digit. *)
Lemma of_string_parts (a b c : string) :
  forallb isdigit a = true ->
  forallb isdigit c = true ->
  (b = "" /\ c = "") \/ b = "." ->
  Float.of_string (a ++ b ++ c) =
  if truthy (a ++ c)
  then Some (Float.of_ratio (Float.decimal_value 0 (a ++ c))
                            (10 ^ Z.of_nat (String.length c)))
  else None.
Proof.
  intros Ha Hc [[-> ->] | ->].
  - change ("" ++ "") with "". rewrite !app_nil_r.
    unfold Float.of_string.
    destruct (take_while_all isdigit a Ha) as [-> ->].
    now rewrite app_nil_r.
  - unfold Float.of_string. change ("." ++ c) with (String dot c).
    destruct (take_while_stop isdigit a dot c Ha eq_refl) as [-> ->].
    rewrite Ascii.eqb_refl, Hc. reflexivity.
Qed.

(** Without its commas, the first part of a token is a run of digits. *)
Lemma replace_commas (a : string) :
  forallb digit_or_comma a = true ->
  forallb isdigit (replace comma "" a) = true /\
  truthy (replace comma "" a) = existsb isdigit a.
Proof.
  induction a as [|c a IH]; [auto |].
  cbn [forallb replace existsb]. intros H.
  apply andb_true_iff in H as [Hc Ha]. destruct (IH Ha) as [IH1 IH2].
  unfold digit_or_comma in Hc.
  destruct (Ascii.eqb c comma) eqn:Ecomma.
  - apply Ascii.eqb_eq in Ecomma as ->.
    cbn [String.append]. split; [exact IH1 |].
    rewrite IH2. reflexivity.
  - rewrite orb_false_r in Hc. cbn [forallb truthy]. rewrite Hc, IH1. auto.
Qed.

Lemma digits_no_comma (c : string) :
  forallb isdigit c = true ->
  existsb (fun x => Ascii.eqb x comma) c = false.
Proof.
  induction c as [|x c IH]; [reflexivity |].
  cbn [forallb existsb]. intros H. apply andb_true_iff in H as [Hx Hc].
  rewrite (IH Hc), orb_false_r.
  destruct (Ascii.eqb x comma) eqn:E; [| reflexivity].
  apply Ascii.eqb_eq in E as ->. discriminate Hx.
Qed.

Lemma digits_exists (c : string) :
  forallb isdigit c = true -> existsb isdigit c = truthy c.
Proof.
  destruct c as [|x c]; [reflexivity |].
  cbn [forallb existsb truthy]. intros H.
  apply andb_true_iff in H as [-> _]. reflexivity.
Qed.

(** The string handed to [float]: the token with its commas removed. *)
Lemma numeric_of_token (a b c : string) :
  forallb digit_or_comma a = true ->
  forallb isdigit c = true ->
  (b = "" /\ c = "") \/ b = "." ->
  replace comma "" (a ++ b ++ c) = replace comma "" a ++ b ++ c.
Proof.
  intros Ha Hc Hb. rewrite !replace_app.
  rewrite (replace_absent comma "" c) by now apply digits_no_comma.
  destruct Hb as [[-> _] | ->]; reflexivity.
Qed.

(** [float] accepts the first token of a text exactly when the token holds
    a digit. *)
Lemma float_of_token (tok : string) :
  token_shape tok ->
  Float.of_string (replace comma "" tok) = None <->
  existsb isdigit tok = false.
Proof.
  intros (a & b & c & -> & Hta & Ha & Hc & Hb).
  rewrite numeric_of_token by assumption.
  destruct (replace_commas a Ha) as [Hd Ht].
  rewrite of_string_parts by assumption.
  rewrite truthy_app, Ht, !existsb_app, (digits_exists c Hc).
  assert (Hbd : existsb isdigit b = false)
    by (destruct Hb as [[-> _] | ->]; reflexivity).
  rewrite Hbd, orb_false_l.
  destruct (existsb isdigit a || truthy c); split; congruence.
Qed.

(** Only digits and points reach [float]. *)
Lemma numeric_alphabet (tok : string) :
  token_shape tok ->
  forallb (fun c => isdigit c || Ascii.eqb c dot) (replace comma "" tok)
  = true.
Proof.
  intros (a & b & c & -> & Hta & Ha & Hc & Hb).
  rewrite numeric_of_token by assumption.
  destruct (replace_commas a Ha) as [Hd _].
  assert (Hw : forall s, forallb isdigit s = true ->
               forallb (fun c => isdigit c || Ascii.eqb c dot) s = true).
  { induction s as [|x s IH]; [reflexivity |].
    cbn [forallb]. intros H. apply andb_true_iff in H as [-> Hs].
    now rewrite IH. }
  rewrite !forallb_app, (Hw _ Hd), (Hw _ Hc).
  destruct Hb as [[-> _] | ->]; reflexivity.
Qed.

(** A token without a digit is a run of commas, with or without a point
    after it. *)
Lemma digitless_token (tok : string) :
  token_shape tok ->
  existsb isdigit tok = false <->
  exists a,
    truthy a = true /\
    forallb (Ascii.eqb comma) a = true /\
    (tok = a \/ tok = a ++ ".").
Proof.
  intros (a & b & c & -> & Hta & Ha & Hc & Hb). split.
  - rewrite !existsb_app, (digits_exists c Hc). intros H.
    apply orb_false_iff in H as [Hna H]. apply orb_false_iff in H as [_ Hcn].
    apply truthy_false in Hcn as ->.
    exists a. split; [exact Hta |]. split.
    + clear Hta Hb Hc. induction a as [|x a IH]; [reflexivity |].
      cbn [forallb existsb] in *.
      apply andb_true_iff in Ha as [Hx Ha].
      apply orb_false_iff in Hna as [Hxd Hna].
      unfold digit_or_comma in Hx. rewrite Hxd in Hx. cbn [orb] in Hx.
      rewrite Ascii.eqb_sym, Hx. now apply IH.
    + destruct Hb as [[-> _] | ->]; [left | right]; now rewrite ?app_nil_r.
  - intros (a' & Hta' & Hca & Htok).
    assert (Hnd : existsb isdigit a' = false).
    { clear Htok Hta'. induction a' as [|x a' IH]; [reflexivity |].
      cbn [forallb existsb] in *. apply andb_true_iff in Hca as [Hx Hca].
      apply Ascii.eqb_eq in Hx as <-. now rewrite IH. }
    destruct Htok as [-> | ->]; [exact Hnd |].
    now rewrite existsb_app, Hnd.
Qed.

End FloatFacts.

(** ** The extractor *)

Module ExtractFacts.
Import Str StrFacts ReFacts FloatFacts.

Lemma price_text_of_ids_matched (soup : node) (pids : list string) :
  price_text_of_ids soup pids =
  option_map (fun el => strip (Soup.get_text el)) (matched_element soup pids).
Proof.
  induction pids as [|pid pids IH]; [reflexivity |].
  cbn [price_text_of_ids matched_element].
  destruct (Soup.find soup pid) as [el|]; [| exact IH].
  destruct (truthy (Soup.get_text el)); [reflexivity | exact IH].
Qed.

(** The loop breaks at the first identifier, in the order of the tuple,
    whose element has text. *)
Lemma matched_element_first (soup : node) (before after : list string)
    (pid : string) (el : node) :
  Forall (passed_over soup) before ->
  Soup.find soup pid = Some el ->
  truthy (Soup.get_text el) = true ->
  matched_element soup (before ++ pid :: after) = Some el.
Proof.
  intros Hb Hf Ht. induction Hb as [|q before Hq _ IH].
  - cbn [app matched_element]. now rewrite Hf, Ht.
  - cbn [app matched_element]. unfold passed_over in Hq.
    destruct (Soup.find soup q) as [e|]; [| exact IH].
    now rewrite Hq.
Qed.

Lemma matched_element_none (soup : node) (pids : list string) :
  Forall (passed_over soup) pids -> matched_element soup pids = None.
Proof.
  induction 1 as [|q pids Hq _ IH]; [reflexivity |].
  cbn [matched_element]. unfold passed_over in Hq.
  destruct (Soup.find soup q) as [e|]; [| exact IH].
  now rewrite Hq.
Qed.

Lemma matched_element_inv (soup : node) (pids : list string) :
  match matched_element soup pids with
  | Some el =>
      exists before pid after,
        pids = (before ++ pid :: after)%list /\
        Forall (passed_over soup) before /\
        Soup.find soup pid = Some el /\
        truthy (Soup.get_text el) = true
  | None => Forall (passed_over soup) pids
  end.
Proof.
  induction pids as [|q pids IH]; [constructor |].
  cbn [matched_element].
  destruct (Soup.find soup q) as [e|] eqn:Hf.
  - destruct (truthy (Soup.get_text e)) eqn:Ht.
    + exists [], q, pids. auto.
    + destruct (matched_element soup pids) as [el|].
      * destruct IH as (before & pid & after & -> & Hb & Hfind & Htext).
        exists (q :: before), pid, after. repeat split; try assumption.
        constructor; [| assumption]. unfold passed_over. now rewrite Hf.
      * constructor; [| assumption]. unfold passed_over. now rewrite Hf.
  - destruct (matched_element soup pids) as [el|].
    + destruct IH as (before & pid & after & -> & Hb & Hfind & Htext).
      exists (q :: before), pid, after. repeat split; try assumption.
      constructor; [| assumption]. unfold passed_over. now rewrite Hf.
    + constructor; [| assumption]. unfold passed_over. now rewrite Hf.
Qed.

(** [price_text] after the two lookups, by what the loop found. *)
Lemma price_text_of_cases (soup : node) :
  price_text_of soup =
  match matched_element soup price_ids with
  | Some el =>
      if truthy (strip (Soup.get_text el))
      then Some (strip (Soup.get_text el))
      else page_scan soup
  | None => page_scan soup
  end.
Proof.
  unfold price_text_of. rewrite price_text_of_ids_matched.
  destruct (matched_element soup price_ids) as [el|]; [| reflexivity].
  cbn [option_map truthy_opt].
  destruct (truthy (strip (Soup.get_text el))); reflexivity.
Qed.

Lemma token_truthy (tok : string) : token_shape tok -> truthy tok = true.
Proof.
  intros (a & b & c & -> & Ha & _). now rewrite truthy_app, Ha.
Qed.

(** What the scan returns is a token of the text, the leftmost one. *)
Lemma page_scan_some (soup : node) (tok : string) :
  page_scan soup = Some tok ->
  exists pre rest,
    Soup.get_text soup = pre ++ tok ++ rest /\
    existsb digit_or_comma pre = false /\
    token_shape tok.
Proof.
  unfold page_scan, Re.group0.
  destruct (Re.search price_pattern (Soup.get_text soup))
    as [[m rest]|] eqn:E; [| discriminate].
  cbn [option_map fst]. intros H. injection H as ->.
  apply search_price_some in E as (pre & Hs & Hpre & Hshape).
  now exists pre, rest.
Qed.

Lemma page_scan_none (soup : node) :
  page_scan soup = None <->
  existsb digit_or_comma (Soup.get_text soup) = false.
Proof.
  unfold page_scan, Re.group0. rewrite <- search_price_none.
  destruct (Re.search price_pattern (Soup.get_text soup));
    cbn [option_map]; split; congruence.
Qed.

End ExtractFacts.

Section Extractor.
Import Str StrFacts ReFacts FloatFacts ExtractFacts.

(** C3, as amended.  The identifiers are tried in the order of the tuple:
    the element of the first identifier that has non-empty text supplies
    the candidate, its text stripped, whenever that stripped text is not
    empty, whatever else the page holds, and the price is read from that
    candidate alone.  When no identifier has an element with text, the
    candidate is the result of the scan of the full text, and what the scan
    returns is the leftmost token of the text: nothing before it is a digit
    or a comma, and it is made of digits and commas followed by nothing or
    by one point and digits.  Every page is in one of the two situations:
    some identifier is the first to have an element with text, or none
    has. *)
Theorem fallback_chain (soup : node) :
  (forall (before after : list string) (pid : string) (el : node),
     price_ids = (before ++ pid :: after)%list ->
     Forall (passed_over soup) before ->
     Soup.find soup pid = Some el ->
     truthy (Soup.get_text el) = true ->
     truthy (strip (Soup.get_text el)) = true ->
     price_text_of soup = Some (strip (Soup.get_text el)) /\
     price_of_soup soup = price_of_text (strip (Soup.get_text el))) /\
  (Forall (passed_over soup) price_ids ->
   price_text_of soup = page_scan soup) /\
  (forall tok : string,
     page_scan soup = Some tok ->
     exists pre rest,
       Soup.get_text soup = pre ++ tok ++ rest /\
       existsb digit_or_comma pre = false /\
       token_shape tok) /\
  (Forall (passed_over soup) price_ids \/
   exists (before after : list string) (pid : string) (el : node),
     price_ids = (before ++ pid :: after)%list /\
     Forall (passed_over soup) before /\
     Soup.find soup pid = Some el /\
     truthy (Soup.get_text el) = true).
Proof.
  split; [| split; [| split]].
  - intros before after pid el Hids Hb Hf Ht Hs.
    assert (Hpt : price_text_of soup = Some (strip (Soup.get_text el))).
    { rewrite price_text_of_cases, Hids.
      rewrite (matched_element_first soup before after pid el Hb Hf Ht).
      now rewrite Hs. }
    split; [exact Hpt |].
    unfold price_of_soup. now rewrite Hpt, Hs.
  - intros Hall. rewrite price_text_of_cases.
    now rewrite (matched_element_none soup price_ids Hall).
  - apply page_scan_some.
  - pose proof (matched_element_inv soup price_ids) as Hinv.
    destruct (matched_element soup price_ids) as [el|]; [| now left].
    destruct Hinv as (before & pid & after & Hids & Hb & Hf & Ht).
    right. now exists before, after, pid, el.
Qed.

Lemma fallback_chain_witness :
  (price_text_of element_page =
     Some (strip (Soup.get_text
                    (price_span "priceblock_dealprice" " $19.99 "))) /\
   price_of_soup element_page =
     price_of_text (strip (Soup.get_text
                    (price_span "priceblock_dealprice" " $19.99 ")))) /\
  price_text_of plain_page = page_scan plain_page /\
  (exists pre rest,
     Soup.get_text plain_page = pre ++ "1,234.50" ++ rest /\
     existsb digit_or_comma pre = false /\
     token_shape "1,234.50").
Proof.
  split; [| split].
  - apply (proj1 (fallback_chain element_page)
             ["priceblock_ourprice"] ["priceblock_saleprice"]
             "priceblock_dealprice").
    + reflexivity.
    + constructor; [vm_compute; exact I | constructor].
    + vm_compute. reflexivity.
    + vm_compute. reflexivity.
    + vm_compute. reflexivity.
  - apply (proj1 (proj2 (fallback_chain plain_page))).
    repeat (constructor; [vm_compute; exact I |]). constructor.
  - apply (proj1 (proj2 (proj2 (fallback_chain plain_page)))).
    vm_compute. reflexivity.
Defined.

(** C3 as stated fails, whether having text means being non-empty or being
    non-empty once stripped.  On [blank_page] the first identifier has an
    element whose text is a single blank and the second one an element that
    reads "$5.00"; the candidate is neither: it is the token "4" that the
    scan of the whole page finds. *)
Lemma blank_element_refutes_element_always_supplies :
  ~ element_always_supplies_candidate truthy /\
  ~ element_always_supplies_candidate (fun t => truthy (strip t)).
Proof.
  split; intros H.
  - specialize (H blank_page []
                  ["priceblock_dealprice"; "priceblock_saleprice"]
                  "priceblock_ourprice"
                  (price_span "priceblock_ourprice" " ")
                  eq_refl ltac:(constructor)).
    destruct H as [H | H]; [vm_compute; reflexivity .. | |];
      vm_compute in H; discriminate H.
  - specialize (H blank_page ["priceblock_ourprice"]
                  ["priceblock_saleprice"]
                  "priceblock_dealprice"
                  (price_span "priceblock_dealprice" "$5.00")
                  eq_refl).
    destruct H as [H | H];
      [constructor; [vm_compute; reflexivity | constructor]
      | vm_compute; reflexivity .. | |];
      vm_compute in H; discriminate H.
Qed.

(** C10.  When the first identifier, in priority order, whose element has
    text has only blanks in it, the loop breaks there with an empty
    candidate, whatever identifiers come after it; the candidate is then
    the result of the scan of the full text, and the price is read from the
    token the scan finds (the request fails with "no price found" only when
    the scan finds none). *)
Theorem blank_element_falls_back_to_scan (soup : node)
    (before after : list string) (pid : string) (el : node) :
  price_ids = (before ++ pid :: after)%list ->
  Forall (passed_over soup) before ->
  Soup.find soup pid = Some el ->
  truthy (Soup.get_text el) = true ->
  forallb isspace (Soup.get_text el) = true ->
  (forall later : list string,
     price_text_of_ids soup (before ++ pid :: later) = Some "") /\
  price_text_of soup = page_scan soup /\
  price_of_soup soup =
    match page_scan soup with
    | Some tok => price_of_text tok
    | None => inl no_price_found
    end.
Proof.
  intros Hids Hb Hf Ht Hblank.
  assert (Hstrip : strip (Soup.get_text el) = "") by now apply strip_blank.
  assert (Hpt : price_text_of soup = page_scan soup).
  { rewrite price_text_of_cases, Hids.
    rewrite (matched_element_first soup before after pid el Hb Hf Ht).
    now rewrite Hstrip. }
  split; [| split].
  - intros later. rewrite price_text_of_ids_matched.
    rewrite (matched_element_first soup before later pid el Hb Hf Ht).
    cbn [option_map]. now rewrite Hstrip.
  - exact Hpt.
  - unfold price_of_soup. rewrite Hpt.
    destruct (page_scan soup) as [tok|] eqn:E; [| reflexivity].
    apply page_scan_some in E as (pre & rest & _ & _ & Hshape).
    now rewrite (token_truthy tok Hshape).
Qed.

Lemma blank_element_falls_back_to_scan_witness :
  (forall later : list string,
     price_text_of_ids blank_page ([] ++ "priceblock_ourprice" :: later)
     = Some "") /\
  price_text_of blank_page = page_scan blank_page /\
  price_of_soup blank_page =
    match page_scan blank_page with
    | Some tok => price_of_text tok
    | None => inl no_price_found
    end.
Proof.
  apply (blank_element_falls_back_to_scan blank_page []
           ["priceblock_dealprice"; "priceblock_saleprice"]
           "priceblock_ourprice" (price_span "priceblock_ourprice" " ")).
  - reflexivity.
  - constructor.
  - vm_compute. reflexivity.
  - vm_compute. reflexivity.
  - vm_compute. reflexivity.
Defined.

(** C4.  Extraction never crashes and fails in three distinct ways.  When
    neither the element lookup nor the scan of the page yields candidate
    text the error is "Could not parse price from page."; when there is
    candidate text without a numeric token it is "Price format not
    recognized."; when the first token does not read as a number it is
    "Price parse failed.".  A text has no numeric token exactly when it
    holds neither a digit nor a comma.  The three errors differ from one
    another, each arises only from its own cause, and every page gives a
    price or one of the three. *)
Theorem extraction_error_kinds (soup : node) :
  (truthy_opt (price_text_of_ids soup price_ids) = false ->
   page_scan soup = None ->
   price_of_soup soup = inl no_price_found) /\
  (forall t : string,
     price_text_of soup = Some t -> truthy t = true ->
     Re.findall price_pattern t = [] ->
     price_of_soup soup = inl unrecognized_format) /\
  (forall (t tok : string) (more : list string),
     price_text_of soup = Some t -> truthy t = true ->
     Re.findall price_pattern t = tok :: more ->
     Float.of_string (replace comma "" tok) = None ->
     price_of_soup soup = inl parse_failure) /\
  (forall t : string,
     existsb digit_or_comma t = false -> Re.findall price_pattern t = []) /\
  (forall t : string,
     Re.findall price_pattern t = [] -> existsb digit_or_comma t = false) /\
  List.NoDup [no_price_found; unrecognized_format; parse_failure] /\
  (price_of_soup soup = inl no_price_found ->
   truthy_opt (price_text_of soup) = false) /\
  (price_of_soup soup = inl unrecognized_format ->
   exists t, price_text_of soup = Some t /\ truthy t = true /\
             Re.findall price_pattern t = []) /\
  (price_of_soup soup = inl parse_failure ->
   exists t tok more,
     price_text_of soup = Some t /\ truthy t = true /\
     Re.findall price_pattern t = tok :: more /\
     Float.of_string (replace comma "" tok) = None) /\
  ((exists x, price_of_soup soup = inr x) \/
   In (price_of_soup soup)
      [inl no_price_found; inl unrecognized_format; inl parse_failure]).
Proof.
  assert (Hcases :
    match price_text_of soup with
    | Some t =>
        if truthy t then
          match Re.findall price_pattern t with
          | [] => price_of_soup soup = inl unrecognized_format
          | tok :: _ =>
              match Float.of_string (replace comma "" tok) with
              | Some x => price_of_soup soup = inr x
              | None => price_of_soup soup = inl parse_failure
              end
          end
        else price_of_soup soup = inl no_price_found
    | None => price_of_soup soup = inl no_price_found
    end).
  { unfold price_of_soup, price_of_text.
    destruct (price_text_of soup) as [t|]; [| reflexivity].
    destruct (truthy t); [| reflexivity]. cbn [negb].
    destruct (Re.findall price_pattern t) as [|tok more]; [reflexivity |].
    destruct (Float.of_string (replace comma "" tok)); reflexivity. }
  repeat apply conj.
  - intros Hids Hscan. unfold price_of_soup, price_text_of.
    rewrite Hids. cbn [negb]. fold (page_scan soup). now rewrite Hscan.
  - intros t Ht Htruthy Hnone. now rewrite Ht, Htruthy, Hnone in Hcases.
  - intros t tok more Ht Htruthy Htok Hfloat.
    now rewrite Ht, Htruthy, Htok, Hfloat in Hcases.
  - intros t. apply findall_price_nil.
  - intros t. apply findall_price_nil.
  - constructor; [intros [H | [H | []]]; discriminate H |].
    constructor; [intros [H | []]; discriminate H |].
    constructor; [intros [] |]. constructor.
  - intros Herr. destruct (price_text_of soup) as [t|]; [| reflexivity].
    cbn [truthy_opt]. destruct (truthy t); [| reflexivity].
    destruct (Re.findall price_pattern t) as [|tok more];
      [rewrite Hcases in Herr; discriminate |].
    destruct (Float.of_string (replace comma "" tok));
      rewrite Hcases in Herr; discriminate.
  - intros Herr. destruct (price_text_of soup) as [t|];
      [| rewrite Hcases in Herr; discriminate].
    destruct (truthy t) eqn:Ht; [| rewrite Hcases in Herr; discriminate].
    destruct (Re.findall price_pattern t) as [|tok more] eqn:Hf;
      [now exists t |].
    destruct (Float.of_string (replace comma "" tok));
      rewrite Hcases in Herr; discriminate.
  - intros Herr. destruct (price_text_of soup) as [t|];
      [| rewrite Hcases in Herr; discriminate].
    destruct (truthy t) eqn:Ht; [| rewrite Hcases in Herr; discriminate].
    destruct (Re.findall price_pattern t) as [|tok more] eqn:Hf;
      [rewrite Hcases in Herr; discriminate |].
    destruct (Float.of_string (replace comma "" tok)) eqn:Hx;
      [rewrite Hcases in Herr; discriminate |].
    now exists t, tok, more.
  - destruct (price_text_of soup) as [t|];
      [| right; rewrite Hcases; cbn [In]; auto].
    destruct (truthy t); [| right; rewrite Hcases; cbn [In]; auto].
    destruct (Re.findall price_pattern t) as [|tok more];
      [right; rewrite Hcases; cbn [In]; auto |].
    destruct (Float.of_string (replace comma "" tok)) as [x|];
      [left; now exists x | right; rewrite Hcases; cbn [In]; auto].
Qed.

Lemma extraction_error_kinds_witness :
  price_of_soup no_price_page = inl no_price_found /\
  price_of_soup no_digits_page = inl unrecognized_format /\
  price_of_soup greeting_page = inl parse_failure.
Proof.
  split; [| split].
  - apply (proj1 (extraction_error_kinds no_price_page));
      vm_compute; reflexivity.
  - apply (proj1 (proj2 (extraction_error_kinds no_digits_page)) "N/A");
      vm_compute; reflexivity.
  - apply (proj1 (proj2 (proj2 (extraction_error_kinds greeting_page)))
             "," "," []); vm_compute; reflexivity.
Defined.

(** C9, as amended.  On every candidate text in which the pattern finds a
    token, the parse succeeds when the first token holds a digit, and it
    fails, with "Price parse failed.", exactly when the first token holds
    no digit; such a token is one or more commas, followed or not by a
    single point. *)
Theorem parse_failure_iff_no_digit (price_text tok : string)
    (more : list string) :
  Re.findall price_pattern price_text = tok :: more ->
  (existsb isdigit tok = true ->
   exists x, price_of_text price_text = inr x) /\
  (price_of_text price_text = inl parse_failure <->
   existsb isdigit tok = false) /\
  (existsb isdigit tok = false <->
   exists a,
     truthy a = true /\
     forallb (Ascii.eqb comma) a = true /\
     (tok = a \/ tok = a ++ ".")).
Proof.
  intros Hf.
  pose proof (findall_price_shape price_text tok more Hf) as Hshape.
  pose proof (float_of_token tok Hshape) as Hfloat.
  unfold price_of_text. rewrite Hf.
  destruct (Float.of_string (replace comma "" tok)) as [x|] eqn:Hx.
  - split; [intros _; now exists x |]. split.
    + split; [discriminate |].
      intros Hd. apply Hfloat in Hd. discriminate Hd.
    + now apply digitless_token.
  - assert (Hd : existsb isdigit tok = false) by now apply Hfloat.
    split; [rewrite Hd; discriminate |]. split.
    + split; auto.
    + now apply digitless_token.
Qed.

Lemma parse_failure_iff_no_digit_witness :
  (existsb isdigit "1,234.50" = true ->
   exists x, price_of_text "$1,234.50 each" = inr x) /\
  (price_of_text "$1,234.50 each" = inl parse_failure <->
   existsb isdigit "1,234.50" = false) /\
  (existsb isdigit "1,234.50" = false <->
   exists a,
     truthy a = true /\
     forallb (Ascii.eqb comma) a = true /\
     ("1,234.50" = a \/ "1,234.50" = a ++ ".")).
Proof.
  apply (parse_failure_iff_no_digit "$1,234.50 each" "1,234.50" []).
  vm_compute. reflexivity.
Defined.

(** C9 as stated fails: the first token of [",."] is [",."], which is not
    made of commas only, and the parse of what is left of it, ["."],
    fails. *)
Lemma comma_point_refutes_parse_fails_only_on_commas :
  ~ parse_fails_only_on_commas.
Proof.
  intros H.
  destruct (H ",." ",." [] ltac:(vm_compute; reflexivity)) as [_ [Hfail _]].
  specialize (Hfail ltac:(vm_compute; reflexivity)).
  vm_compute in Hfail. discriminate Hfail.
Qed.

End Extractor.

(** ** The dispatcher *)

Module DispatchFacts.
Import Str StrFacts.

Lemma bind_lift {A B : Type} (r : exn + A) (f : A -> M B) :
  bind (lift r) f =
  match r with
  | inl e => (inl e, [])
  | inr a => f a
  end.
Proof.
  destruct r as [e|a]; [reflexivity |].
  unfold bind, lift. destruct (f a) as [r t]. reflexivity.
Qed.

(** With the configuration in place [send_whatsapp] calls the transport
    once and returns or raises what the transport does. *)
Lemma send_whatsapp_configured (w : world) (body : string)
    (to_override : option string) (c : client)
    (from_number to_number : string) :
  configured w to_override c from_number to_number ->
  send_whatsapp w body to_override =
  (match transport w c body from_number to_number with
   | inr sid => inr sid
   | inl msg => inl (TwilioRestException msg)
   end,
   [Create body from_number to_number]).
Proof.
  intros (Hc & Ht & Hf). unfold send_whatsapp.
  rewrite Hc, bind_lift, Ht, bind_lift, Hf, bind_lift.
  unfold bind, emit.
  destruct (transport w c body from_number to_number); reflexivity.
Qed.

(** Without it, the first missing part is raised and nothing is sent. *)
Lemma send_whatsapp_unconfigured (w : world) (body : string)
    (to_override : option string) :
  (forall c from_number to_number,
     ~ configured w to_override c from_number to_number) ->
  trace (send_whatsapp w body to_override) = [] /\
  exists e, outcome (send_whatsapp w body to_override) = inl e.
Proof.
  intros Hnot. unfold send_whatsapp.
  destruct (_twilio_client w) as [e|c] eqn:Hc;
    [rewrite bind_lift; split; [reflexivity | now exists e] |].
  rewrite bind_lift.
  destruct (_resolve_recipient w to_override) as [e|to_number] eqn:Ht;
    [rewrite bind_lift; split; [reflexivity | now exists e] |].
  rewrite bind_lift.
  destruct (_get_from_number w) as [e|from_number] eqn:Hf;
    [rewrite bind_lift; split; [reflexivity | now exists e] |].
  exfalso. apply (Hnot c from_number to_number). now repeat split.
Qed.

Lemma delayed_whatsapp_unfold (w : world) (body : string) (delay : Z)
    (to_override : option string) :
  delayed_whatsapp w body delay to_override =
  (outcome (send_whatsapp w body to_override),
   (suspension delay ++ trace (send_whatsapp w body to_override))%list).
Proof.
  unfold delayed_whatsapp, suspension, outcome, trace.
  destruct (send_whatsapp w body to_override) as [r t].
  destruct (delay =? 0); reflexivity.
Qed.

Lemma deliveries_suspension (delay : Z) (t : list event) :
  deliveries (suspension delay ++ t) = deliveries t.
Proof. unfold suspension. destruct (delay =? 0); reflexivity. Qed.

Lemma prefix_app (p t : string) : String.prefix p (p ++ t) = true.
Proof.
  induction p as [|c p IH]; cbn [String.append String.prefix].
  - destruct t; reflexivity.
  - destruct (ascii_dec c c); [exact IH | congruence].
Qed.

(** [_resolve_recipient] from the recipient chosen by [or]. *)
Lemma resolve_recipient_chosen (w : world) (to_override : option string) :
  _resolve_recipient w to_override =
  match chosen_recipient w to_override with
  | Some t =>
      if truthy t
      then inr (if startswith "whatsapp:" t then t else "whatsapp:" ++ t)
      else inl recipient_missing
  | None => inl recipient_missing
  end.
Proof.
  unfold _resolve_recipient, chosen_recipient.
  destruct (or_else to_override (config w "TO_WHATSAPP")) as [t|];
    [| reflexivity].
  destruct (truthy t); [| reflexivity].
  destruct (startswith "whatsapp:" t); reflexivity.
Qed.

Lemma resolve_recipient_missing (w : world) (to_override : option string) :
  truthy_opt (chosen_recipient w to_override) = false ->
  _resolve_recipient w to_override = inl recipient_missing.
Proof.
  rewrite resolve_recipient_chosen.
  destruct (chosen_recipient w to_override) as [t|]; [| reflexivity].
  cbn [truthy_opt]. now intros ->.
Qed.

End DispatchFacts.

Section Dispatcher.
Import Str StrFacts DispatchFacts.

(** C6, as amended.  The recipient is the per-request override when it is
    present (not [None] and not empty), otherwise the configured default.
    When neither is present the resolver raises "Recipient WhatsApp number
    missing."; a dispatch then fails without any transport call, and with
    that error whenever the credentials are configured (the credentials are
    checked first).  A resolved address starts with [whatsapp:]: it is the
    chosen recipient itself when that already starts with the prefix, and
    the prefix followed by it otherwise. *)
Theorem recipient_resolution (w : world) (to_override : option string) :
  (truthy_opt to_override = true ->
   chosen_recipient w to_override = to_override) /\
  (truthy_opt to_override = false ->
   chosen_recipient w to_override = config w "TO_WHATSAPP") /\
  (truthy_opt (chosen_recipient w to_override) = false ->
   _resolve_recipient w to_override = inl recipient_missing /\
   forall (body : string) (delay : Z),
     deliveries (trace (delayed_whatsapp w body delay to_override)) = [] /\
     (exists e,
        outcome (delayed_whatsapp w body delay to_override) = inl e) /\
     (forall c : client,
        _twilio_client w = inr c ->
        outcome (delayed_whatsapp w body delay to_override)
        = inl recipient_missing)) /\
  (forall t : string,
     chosen_recipient w to_override = Some t -> truthy t = true ->
     exists r,
       _resolve_recipient w to_override = inr r /\
       startswith "whatsapp:" r = true /\
       (startswith "whatsapp:" t = true -> r = t) /\
       (startswith "whatsapp:" t = false -> r = "whatsapp:" ++ t)).
Proof.
  repeat apply conj.
  - unfold chosen_recipient, or_else. now intros ->.
  - unfold chosen_recipient, or_else. now intros ->.
  - intros Hnone.
    pose proof (resolve_recipient_missing w to_override Hnone) as Hres.
    split; [exact Hres |]. intros body delay.
    assert (Hnot : forall c from_number to_number,
              ~ configured w to_override c from_number to_number).
    { intros c f t (_ & Ht & _). rewrite Hres in Ht. discriminate Ht. }
    destruct (send_whatsapp_unconfigured w body to_override Hnot)
      as [Htrace [e He]].
    rewrite delayed_whatsapp_unfold. cbn [trace outcome fst snd].
    rewrite deliveries_suspension, Htrace.
    split; [reflexivity |]. split; [now exists e |].
    intros c Hc. unfold send_whatsapp.
    now rewrite Hc, bind_lift, Hres, bind_lift.
  - intros t Hchosen Ht. rewrite resolve_recipient_chosen, Hchosen, Ht.
    destruct (startswith "whatsapp:" t) eqn:Hp.
    + exists t. repeat split; [exact Hp | discriminate].
    + exists ("whatsapp:" ++ t). repeat split;
        [apply prefix_app | discriminate].
Qed.

Lemma recipient_resolution_witness :
  chosen_recipient (world_of full_environ Unreachable) (Some "+300")
    = Some "+300" /\
  chosen_recipient (world_of full_environ Unreachable) (Some "")
    = config (world_of full_environ Unreachable) "TO_WHATSAPP" /\
  _resolve_recipient (world_of no_recipient_environ Unreachable) None
    = inl recipient_missing /\
  (exists r,
     _resolve_recipient (world_of full_environ Unreachable) None = inr r /\
     startswith "whatsapp:" r = true /\
     (startswith "whatsapp:" "+200" = true -> r = "+200") /\
     (startswith "whatsapp:" "+200" = false -> r = "whatsapp:" ++ "+200")).
Proof.
  split; [| split; [| split]].
  - apply (proj1 (recipient_resolution
                    (world_of full_environ Unreachable) (Some "+300"))).
    reflexivity.
  - apply (proj1 (proj2 (recipient_resolution
                    (world_of full_environ Unreachable) (Some "")))).
    reflexivity.
  - apply (proj1 (proj2 (proj2 (recipient_resolution
                    (world_of no_recipient_environ Unreachable) None)))).
    vm_compute. reflexivity.
  - apply (proj2 (proj2 (proj2 (recipient_resolution
                    (world_of full_environ Unreachable) None))) "+200");
      vm_compute; reflexivity.
Defined.

(** C6 as stated fails: with neither a recipient nor credentials the
    dispatch fails with "Twilio credentials missing (SID/AUTH).", not with
    the recipient error. *)
Lemma missing_credentials_refute_recipient_resolution_as_stated :
  ~ recipient_resolution_as_stated.
Proof.
  intros H.
  destruct (H (world_of ∅ Unreachable) "body" 0 None) as (_ & _ & Hmiss & _).
  destruct (Hmiss ltac:(vm_compute; reflexivity)) as [Hout _].
  vm_compute in Hout. discriminate Hout.
Qed.

(** C7, as amended.  A dispatch first asks for a suspension of
    [delay_minutes * 60] seconds when the delay is positive, and for none
    when it is zero, and then runs [send_whatsapp] once.  With credentials,
    recipient and sender in place that makes exactly one delivery call,
    after the suspension, whose result or failure is the result of the
    dispatch: a failed call is not tried again.  With any of them missing
    no delivery call is made. *)
Theorem delay_then_single_delivery (w : world) (body : string) (delay : Z)
    (to_override : option string) :
  trace (delayed_whatsapp w body delay to_override) =
    (suspension delay ++ trace (send_whatsapp w body to_override))%list /\
  (0 < delay -> suspension delay = [Sleep (delay * 60)]) /\
  (delay = 0 -> suspension delay = []) /\
  (forall (c : client) (from_number to_number : string),
     configured w to_override c from_number to_number ->
     trace (delayed_whatsapp w body delay to_override) =
       (suspension delay ++ [Create body from_number to_number])%list /\
     outcome (delayed_whatsapp w body delay to_override) =
       match transport w c body from_number to_number with
       | inr sid => inr sid
       | inl msg => inl (TwilioRestException msg)
       end) /\
  ((forall c from_number to_number,
      ~ configured w to_override c from_number to_number) ->
   trace (delayed_whatsapp w body delay to_override) = suspension delay /\
   exists e, outcome (delayed_whatsapp w body delay to_override) = inl e).
Proof.
  rewrite delayed_whatsapp_unfold. cbn [trace outcome fst snd].
  repeat apply conj.
  - reflexivity.
  - intros Hpos. unfold suspension.
    destruct (delay =? 0) eqn:E; [lia | reflexivity].
  - intros ->. reflexivity.
  - intros c from_number to_number Hconf.
    rewrite (send_whatsapp_configured w body to_override c
               from_number to_number Hconf).
    split; reflexivity.
  - intros Hnot.
    destruct (send_whatsapp_unconfigured w body to_override Hnot)
      as [-> He].
    split; [apply List.app_nil_r | exact He].
Qed.

Lemma delay_then_single_delivery_witness :
  suspension 3 = [Sleep (3 * 60)] /\
  suspension 0 = [] /\
  (trace (delayed_whatsapp (refusing_world full_environ Unreachable)
            "body" 3 None) =
     (suspension 3 ++ [Create "body" "whatsapp:+100" "whatsapp:+200"])%list /\
   outcome (delayed_whatsapp (refusing_world full_environ Unreachable)
              "body" 3 None) =
     match transport (refusing_world full_environ Unreachable)
             (Client "AC1" "secret") "body" "whatsapp:+100" "whatsapp:+200"
     with
     | inr sid => inr sid
     | inl msg => inl (TwilioRestException msg)
     end) /\
  (trace (delayed_whatsapp (world_of ∅ Unreachable) "body" 3 None)
     = suspension 3 /\
   exists e,
     outcome (delayed_whatsapp (world_of ∅ Unreachable) "body" 3 None)
     = inl e).
Proof.
  split; [| split; [| split]].
  - apply (proj1 (proj2 (delay_then_single_delivery
                    (world_of ∅ Unreachable) "body" 3 None))).
    lia.
  - apply (proj1 (proj2 (proj2 (delay_then_single_delivery
                    (world_of ∅ Unreachable) "body" 0 None)))).
    reflexivity.
  - apply (proj1 (proj2 (proj2 (proj2 (delay_then_single_delivery
                    (refusing_world full_environ Unreachable)
                    "body" 3 None))))).
    repeat split; vm_compute; reflexivity.
  - apply (proj2 (proj2 (proj2 (proj2 (delay_then_single_delivery
                    (world_of ∅ Unreachable) "body" 3 None))))).
    intros c f t (Hc & _). vm_compute in Hc. discriminate Hc.
Defined.

(** C7 as stated fails: without credentials a dispatch with no delay makes
    no delivery call at all. *)
Lemma missing_credentials_refute_exactly_one_delivery :
  ~ exactly_one_delivery_per_dispatch.
Proof.
  intros H.
  destruct (H (world_of ∅ Unreachable) "body" 0 None ltac:(lia))
    as (f & t & Htrace).
  vm_compute in Htrace. discriminate Htrace.
Qed.

End Dispatcher.

(** ** The orchestrator *)

Module NotifyFacts.
Import Str StrFacts DispatchFacts.

(** Once the price is known, [notify] is one of its two branches. *)
Lemma notify_priced (w : world) (p : NotifyRequest) (price : pyfloat) :
  fetch_price w (url p) = inr price ->
  notify w p =
  if Float.leb price (target_price p)
  then dispatch_branch w p price
  else ret (not_triggered_response price).
Proof.
  intros H. unfold notify. rewrite H, bind_lift.
  destruct (Float.leb price (target_price p)); reflexivity.
Qed.

Lemma notify_fetch_error (w : world) (p : NotifyRequest) (e : exn) :
  fetch_price w (url p) = inl e -> notify w p = (inl e, []).
Proof. intros H. unfold notify. now rewrite H, bind_lift. Qed.

(** The two branches never give the same result. *)
Lemma dispatch_branch_not_ret (w : world) (p : NotifyRequest)
    (price price' : pyfloat) :
  dispatch_branch w p price <> ret (not_triggered_response price').
Proof.
  unfold dispatch_branch, bind, ret.
  destruct (delayed_whatsapp _ _ _ _) as [[e|sid] t]; cbn; discriminate.
Qed.

Lemma dispatch_branch_outcome (w : world) (p : NotifyRequest)
    (price : pyfloat) (r : response) :
  outcome (dispatch_branch w p price) = inr r ->
  exists sid, r = sent_response sid price.
Proof.
  unfold dispatch_branch, bind, ret, outcome.
  destruct (delayed_whatsapp _ _ _ _) as [[e|sid] t]; cbn;
    [discriminate |].
  intros H. injection H as <-. now exists sid.
Qed.

Lemma dispatch_branch_trace (w : world) (p : NotifyRequest)
    (price : pyfloat) :
  trace (dispatch_branch w p price) =
  trace (delayed_whatsapp w
           (message_body (url p) price (target_price p) true)
           (delay_minutes p) (send_to p)).
Proof.
  unfold dispatch_branch, bind, ret, trace.
  destruct (delayed_whatsapp _ _ _ _) as [[e|sid] t]; cbn;
    [reflexivity | apply List.app_nil_r].
Qed.

(** [fetch_price] on a response whose status is not an error. *)
Lemma fetch_price_response (w : world) (u : string) (status_code : Z)
    (soup : node) :
  http_get w u (user_agent w) = Response status_code soup ->
  ~ error_status status_code ->
  fetch_price w u = price_of_soup soup.
Proof.
  intros Hget Hst. unfold fetch_price. fold (user_agent w). rewrite Hget.
  unfold raise_for_status, error_status in *.
  destruct ((400 <=? status_code) && (status_code <? 600)) eqn:E;
    [| reflexivity].
  apply andb_true_iff in E as [E1 E2]. lia.
Qed.

Lemma fetch_price_error_status (w : world) (u : string) (status_code : Z)
    (soup : node) :
  http_get w u (user_agent w) = Response status_code soup ->
  error_status status_code ->
  fetch_price w u = inl (RequestException (HTTPError status_code)).
Proof.
  intros Hget Hst. unfold fetch_price. fold (user_agent w). rewrite Hget.
  unfold raise_for_status, error_status in *.
  destruct ((400 <=? status_code) && (status_code <? 600)) eqn:E;
    [reflexivity |].
  apply andb_false_iff in E as [E | E]; lia.
Qed.

End NotifyFacts.

Section Orchestrator.
Import Str StrFacts FloatFacts ExtractFacts DispatchFacts NotifyFacts.

(** C1.  For every price that [fetch_price] returns and every target,
    [notify] takes the branch that dispatches exactly when
    [price <= target], and the branch that answers "not triggered" exactly
    when not; a returned response carries that comparison as its
    [triggered] field; and a price equal to the target dispatches. *)
Theorem threshold_is_inclusive (w : world) (p : NotifyRequest)
    (price : pyfloat) :
  fetch_price w (url p) = inr price ->
  (notify w p = dispatch_branch w p price <->
   Float.leb price (target_price p) = true) /\
  (notify w p = ret (not_triggered_response price) <->
   Float.leb price (target_price p) = false) /\
  (forall r : response,
     outcome (notify w p) = inr r ->
     get "triggered" r = Some (JBool (Float.leb price (target_price p)))) /\
  (Float.eqb price (target_price p) = true ->
   notify w p = dispatch_branch w p price) /\
  (price = target_price p -> notify w p = dispatch_branch w p price).
Proof.
  intros Hprice. pose proof (notify_priced w p price Hprice) as Hn.
  destruct (Float.leb price (target_price p)) eqn:Hle.
  - split; [| split; [| split; [| split]]].
    + split; [reflexivity | intros _; exact Hn].
    + split; [| discriminate]. rewrite Hn. intros H.
      now apply dispatch_branch_not_ret in H.
    + intros r Hr. rewrite Hn in Hr.
      apply dispatch_branch_outcome in Hr as [sid ->]. reflexivity.
    + intros _. exact Hn.
    + intros _. exact Hn.
  - split; [| split; [| split; [| split]]].
    + split; [| discriminate]. rewrite Hn. intros H. symmetry in H.
      now apply dispatch_branch_not_ret in H.
    + split; [reflexivity | intros _; exact Hn].
    + intros r Hr. rewrite Hn in Hr. cbn in Hr. injection Hr as <-.
      reflexivity.
    + intros Heq. apply eqb_leb in Heq. congruence.
    + intros Heq. rewrite Heq, leb_refl in Hle. discriminate Hle.
Qed.

Lemma threshold_is_inclusive_witness :
  (notify (world_of full_environ (Response 200 element_page))
          (request f19_99 0 None)
   = dispatch_branch (world_of full_environ (Response 200 element_page))
       (request f19_99 0 None) f19_99 <->
   Float.leb f19_99 (target_price (request f19_99 0 None)) = true) /\
  (notify (world_of full_environ (Response 200 element_page))
          (request f19_99 0 None)
   = ret (not_triggered_response f19_99) <->
   Float.leb f19_99 (target_price (request f19_99 0 None)) = false) /\
  (forall r : response,
     outcome (notify (world_of full_environ (Response 200 element_page))
                (request f19_99 0 None)) = inr r ->
     get "triggered" r =
     Some (JBool (Float.leb f19_99
                    (target_price (request f19_99 0 None))))) /\
  (Float.eqb f19_99 (target_price (request f19_99 0 None)) = true ->
   notify (world_of full_environ (Response 200 element_page))
          (request f19_99 0 None)
   = dispatch_branch (world_of full_environ (Response 200 element_page))
       (request f19_99 0 None) f19_99) /\
  (f19_99 = target_price (request f19_99 0 None) ->
   notify (world_of full_environ (Response 200 element_page))
          (request f19_99 0 None)
   = dispatch_branch (world_of full_environ (Response 200 element_page))
       (request f19_99 0 None) f19_99).
Proof.
  apply (threshold_is_inclusive
           (world_of full_environ (Response 200 element_page))
           (request f19_99 0 None) f19_99).
  vm_compute. reflexivity.
Defined.

(** C2.  When the price that [fetch_price] returns is greater than the
    target, [notify] returns the response with [status] "not_triggered",
    the price, [triggered] false and no [sid], and its trace is empty: no
    suspension and no delivery call. *)
Theorem above_target_is_not_dispatched (w : world) (p : NotifyRequest)
    (price : pyfloat) :
  fetch_price w (url p) = inr price ->
  Float.gtb price (target_price p) = true ->
  exists r : response,
    notify w p = (inr r, []) /\
    get "status" r = Some (JStr "not_triggered") /\
    get "price" r = Some (JFloat price) /\
    get "triggered" r = Some (JBool false) /\
    get "sid" r = None /\
    deliveries (trace (notify w p)) = [].
Proof.
  intros Hprice Hgt. apply gtb_leb in Hgt.
  rewrite (notify_priced w p price Hprice), Hgt.
  exists (not_triggered_response price). repeat split.
Qed.

Lemma above_target_is_not_dispatched_witness :
  exists r : response,
    notify (world_of full_environ (Response 200 element_page))
           (request f4 5 None) = (inr r, []) /\
    get "status" r = Some (JStr "not_triggered") /\
    get "price" r = Some (JFloat f19_99) /\
    get "triggered" r = Some (JBool false) /\
    get "sid" r = None /\
    deliveries (trace (notify
                  (world_of full_environ (Response 200 element_page))
                  (request f4 5 None))) = [].
Proof.
  apply (above_target_is_not_dispatched
           (world_of full_environ (Response 200 element_page))
           (request f4 5 None) f19_99);
    vm_compute; reflexivity.
Defined.

(** C5, as amended.  When the host cannot be reached, when the request
    times out, or when the response has a status from 400 to 599, [notify]
    raises the HTTP client's exception for that failure (connection error,
    timeout, HTTP error with the status) and does nothing else, whatever
    the page holds; these exceptions differ from every error the program
    raises itself.  A response with any other status, a 3xx one included,
    is not a failure: its page goes to the extractor. *)
Theorem fetch_failure_surfaces_first (w : world) (p : NotifyRequest) :
  (http_get w (url p) (user_agent w) = Unreachable ->
   notify w p = (inl (RequestException ConnectionError), [])) /\
  (http_get w (url p) (user_agent w) = TimedOut ->
   notify w p = (inl (RequestException Timeout), [])) /\
  (forall (status_code : Z) (soup : node),
     http_get w (url p) (user_agent w) = Response status_code soup ->
     error_status status_code ->
     notify w p = (inl (RequestException (HTTPError status_code)), [])) /\
  (forall (status_code : Z) (soup : node),
     http_get w (url p) (user_agent w) = Response status_code soup ->
     ~ error_status status_code ->
     fetch_price w (url p) = price_of_soup soup) /\
  (forall e : request_error, ~ List.In (RequestException e) own_errors).
Proof.
  split; [| split; [| split; [| split]]].
  - intros Hget. apply notify_fetch_error.
    unfold fetch_price. fold (user_agent w). now rewrite Hget.
  - intros Hget. apply notify_fetch_error.
    unfold fetch_price. fold (user_agent w). now rewrite Hget.
  - intros status_code soup Hget Hst. apply notify_fetch_error.
    now apply (fetch_price_error_status w (url p) status_code soup).
  - intros status_code soup. apply fetch_price_response.
  - intros e Hin. cbn [own_errors List.In] in Hin.
    repeat (destruct Hin as [Hin | Hin]; [discriminate Hin |]).
    exact Hin.
Qed.

Lemma fetch_failure_surfaces_first_witness :
  notify (world_of full_environ Unreachable) (request f20 0 None)
    = (inl (RequestException ConnectionError), []) /\
  notify (world_of full_environ TimedOut) (request f20 0 None)
    = (inl (RequestException Timeout), []) /\
  notify (world_of full_environ (Response 404 element_page))
         (request f20 0 None)
    = (inl (RequestException (HTTPError 404)), []) /\
  fetch_price (world_of full_environ (Response 200 element_page))
              (url (request f20 0 None))
    = price_of_soup element_page.
Proof.
  split; [| split; [| split]].
  - apply (proj1 (fetch_failure_surfaces_first
                    (world_of full_environ Unreachable)
                    (request f20 0 None))).
    reflexivity.
  - apply (proj1 (proj2 (fetch_failure_surfaces_first
                    (world_of full_environ TimedOut)
                    (request f20 0 None)))).
    reflexivity.
  - apply (proj1 (proj2 (proj2 (fetch_failure_surfaces_first
                    (world_of full_environ (Response 404 element_page))
                    (request f20 0 None)))) 404 element_page).
    + reflexivity.
    + unfold error_status. lia.
  - apply (proj1 (proj2 (proj2 (proj2 (fetch_failure_surfaces_first
                    (world_of full_environ (Response 200 element_page))
                    (request f20 0 None))))) 200 element_page).
    + reflexivity.
    + unfold error_status. lia.
Defined.

(** C5 as stated fails: a response with status 300 is not a success, and
    [notify] reads the price from its page and sends the notification. *)
Lemma status_300_refutes_every_failed_fetch_surfaces :
  ~ every_failed_fetch_surfaces.
Proof.
  intros H.
  destruct (H (world_of full_environ (Response 300 element_page))
              (request f20 0 None)) as [e He].
  - cbn. unfold non_success_status. lia.
  - vm_compute in He. discriminate He.
Qed.

(** C8.  The body is the four lines "Price alert for <url>", "Current
    price: <price>", "Target: <target>" and "Triggered: yes" or "Triggered:
    no", separated by newlines, and a delivered body is that text for the
    URL of the request, the price read from the page, the target of the
    request and the flag set.  For a request with target 20.00 against a
    page whose recognised element has the text "$19.99": the price is
    19.99, the request dispatches, every delivered body contains "19.99"
    and "20.0", and in a configured world exactly one body is delivered. *)
Theorem notification_body :
  (forall (u : string) (price target : pyfloat) (triggered : bool),
     message_body u price target triggered =
     "Price alert for " ++ u ++ nl ++
     "Current price: " ++ Float.repr price ++ nl ++
     "Target: " ++ Float.repr target ++ nl ++
     "Triggered: " ++ (if triggered then "yes" else "no")) /\
  (forall (w : world) (p : NotifyRequest) (price : pyfloat)
          (body from_number to_number : string),
     fetch_price w (url p) = inr price ->
     List.In (Create body from_number to_number) (trace (notify w p)) ->
     body = message_body (url p) price (target_price p) true) /\
  (forall (w : world) (p : NotifyRequest) (status_code : Z)
          (soup el : node),
     http_get w (url p) (user_agent w) = Response status_code soup ->
     ~ error_status status_code ->
     matched_element soup price_ids = Some el ->
     Soup.get_text el = "$19.99" ->
     Float.of_string "20.00" = Some (target_price p) ->
     exists price : pyfloat,
       Float.of_string "19.99" = Some price /\
       fetch_price w (url p) = inr price /\
       notify w p = dispatch_branch w p price /\
       (forall body from_number to_number : string,
          List.In (Create body from_number to_number)
                  (trace (notify w p)) ->
          contains "19.99" body = true /\ contains "20.0" body = true) /\
       (forall (c : client) (from_number to_number : string),
          configured w (send_to p) c from_number to_number ->
          deliveries (trace (notify w p)) =
          [Create (message_body (url p) price (target_price p) true)
                  from_number to_number])).
Proof.
  assert (Hbody : forall (w : world) (p : NotifyRequest) (price : pyfloat)
            (body from_number to_number : string),
            fetch_price w (url p) = inr price ->
            List.In (Create body from_number to_number)
                    (trace (notify w p)) ->
            body = message_body (url p) price (target_price p) true).
  { intros w p price body from_number to_number Hprice Hin.
    rewrite (notify_priced w p price Hprice) in Hin.
    destruct (Float.leb price (target_price p)); [| destruct Hin].
    rewrite dispatch_branch_trace, delayed_whatsapp_unfold in Hin.
    cbn [trace snd] in Hin.
    apply List.in_app_or in Hin as [Hin | Hin].
    - unfold suspension in Hin.
      destruct (delay_minutes p =? 0); [destruct Hin |].
      destruct Hin as [Hin | []]. discriminate Hin.
    - unfold send_whatsapp in Hin.
      destruct (_twilio_client w) as [e|c];
        [rewrite bind_lift in Hin; destruct Hin |].
      rewrite bind_lift in Hin.
      destruct (_resolve_recipient w (send_to p)) as [e|t];
        [rewrite bind_lift in Hin; destruct Hin |].
      rewrite bind_lift in Hin.
      destruct (_get_from_number w) as [e|f];
        [rewrite bind_lift in Hin; destruct Hin |].
      rewrite bind_lift in Hin. unfold bind, emit in Hin.
      destruct (transport w c _ f t); cbn in Hin;
        destruct Hin as [Hin | []]; now injection Hin as <- _ _. }
  split; [| split].
  - reflexivity.
  - exact Hbody.
  - intros w p status_code soup el Hget Hst Hel Htext Htarget.
    assert (Ht : target_price p = f20).
    { assert (H20 : Float.of_string "20.00" = Some f20)
        by (vm_compute; reflexivity).
      rewrite H20 in Htarget. now injection Htarget. }
    assert (Hprice : fetch_price w (url p) = inr f19_99).
    { rewrite (fetch_price_response w _ status_code soup Hget Hst).
      unfold price_of_soup. rewrite price_text_of_cases, Hel, Htext.
      vm_compute. reflexivity. }
    assert (Hn : notify w p = dispatch_branch w p f19_99).
    { rewrite (notify_priced w p f19_99 Hprice), Ht. reflexivity. }
    exists f19_99.
    split; [vm_compute; reflexivity |].
    split; [exact Hprice |].
    split; [exact Hn |].
    split.
    + intros body from_number to_number Hin.
      rewrite (Hbody w p f19_99 body from_number to_number Hprice Hin), Ht.
      unfold message_body.
      split; do 2 apply contains_app_r; vm_compute; reflexivity.
    + intros c from_number to_number Hconf.
      rewrite Hn, dispatch_branch_trace, delayed_whatsapp_unfold.
      cbn [trace snd]. rewrite deliveries_suspension.
      rewrite (send_whatsapp_configured w _ (send_to p) c
                 from_number to_number Hconf).
      reflexivity.
Qed.

Lemma notification_body_witness :
  (forall (body from_number to_number : string),
     List.In (Create body from_number to_number)
       (trace (notify (world_of full_environ (Response 200 sale_page))
                 (request f20 0 None))) ->
     body = message_body (url (request f20 0 None)) f19_99
              (target_price (request f20 0 None)) true) /\
  (exists price : pyfloat,
     Float.of_string "19.99" = Some price /\
     fetch_price (world_of full_environ (Response 200 sale_page))
       (url (request f20 0 None)) = inr price /\
     notify (world_of full_environ (Response 200 sale_page))
       (request f20 0 None)
     = dispatch_branch (world_of full_environ (Response 200 sale_page))
         (request f20 0 None) price /\
     (forall body from_number to_number : string,
        List.In (Create body from_number to_number)
          (trace (notify (world_of full_environ (Response 200 sale_page))
                    (request f20 0 None))) ->
        contains "19.99" body = true /\ contains "20.0" body = true) /\
     (forall (c : client) (from_number to_number : string),
        configured (world_of full_environ (Response 200 sale_page))
          (send_to (request f20 0 None)) c from_number to_number ->
        deliveries
          (trace (notify (world_of full_environ (Response 200 sale_page))
                    (request f20 0 None))) =
        [Create (message_body (url (request f20 0 None)) price
                   (target_price (request f20 0 None)) true)
                from_number to_number])).
Proof.
  split.
  - intros body from_number to_number.
    apply (proj1 (proj2 notification_body)
             (world_of full_environ (Response 200 sale_page))
             (request f20 0 None) f19_99).
    vm_compute. reflexivity.
  - apply (proj2 (proj2 notification_body)
             (world_of full_environ (Response 200 sale_page))
             (request f20 0 None) 200 sale_page
             (price_span "priceblock_ourprice" "$19.99")).
    + reflexivity.
    + unfold error_status. lia.
    + vm_compute. reflexivity.
    + vm_compute. reflexivity.
    + vm_compute. reflexivity.
Defined.

End Orchestrator.

(** * Further properties of the code *)

(** ** Tokens and the texts around them *)

Module TokenFacts.
Import Str StrFacts ReFacts FloatFacts ExtractFacts.

(** A token, matched from its own start, is matched whole. *)
Lemma match_at_whole (tok : string) :
  token_shape tok -> Re.match_at price_pattern tok = Some (tok, "").
Proof.
  intros (a & b & c & -> & Hta & Ha & Hc & Hb).
  rewrite match_at_price.
  assert (Hrest : token_rest (a ++ b ++ c) = "").
  { unfold token_rest. destruct Hb as [[-> ->] | ->].
    - change ("" ++ "") with "". rewrite app_nil_r.
      destruct (take_while_all digit_or_comma a Ha) as [_ ->]. reflexivity.
    - change ("." ++ c) with (String dot c).
      destruct (take_while_stop digit_or_comma a dot c Ha eq_refl)
        as [_ ->].
      cbn [skip_dot]. rewrite Ascii.eqb_refl.
      now destruct (take_while_all isdigit c Hc) as [_ ->]. }
  assert (Htext : token_text (a ++ b ++ c) = a ++ b ++ c).
  { pose proof (token_split (a ++ b ++ c)) as Hs.
    rewrite Hrest, app_nil_r in Hs. exact Hs. }
  destruct a as [|h a]; [discriminate Hta |].
  cbn [String.append]. cbn [String.append] in Htext, Hrest.
  cbn [forallb] in Ha. apply andb_true_iff in Ha as [-> _].
  now rewrite Htext, Hrest.
Qed.

(** Text that holds no digit and no comma is skipped by the search. *)
Lemma drop_prefix (pre t : string) :
  existsb digit_or_comma pre = false ->
  drop_while (fun c => negb (digit_or_comma c)) (pre ++ t) =
  drop_while (fun c => negb (digit_or_comma c)) t.
Proof.
  induction pre as [|c pre IH]; [reflexivity |].
  cbn [existsb String.append drop_while]. intros H.
  apply orb_false_iff in H as [-> Hpre]. cbn [negb]. now apply IH.
Qed.

Lemma search_prefix (pre t : string) :
  existsb digit_or_comma pre = false ->
  Re.search price_pattern (pre ++ t) = Re.search price_pattern t.
Proof. intros H. now rewrite !search_price, drop_prefix. Qed.

Lemma search_token (tok : string) :
  token_shape tok -> Re.search price_pattern tok = Some (tok, "").
Proof.
  intros Hshape. rewrite search_price.
  pose proof (match_at_whole tok Hshape) as Hm.
  destruct Hshape as (a & b & c & -> & Hta & Ha & _).
  destruct a as [|h a]; [discriminate Hta |].
  cbn [forallb] in Ha. apply andb_true_iff in Ha as [Hh _].
  cbn [String.append drop_while]. rewrite Hh. cbn [negb]. exact Hm.
Qed.

(** [price_of_text] reads the match that [search] finds. *)
Lemma price_of_text_search (t : string) :
  price_of_text t =
  match Re.search price_pattern t with
  | Some (tok, _) => parse_token tok
  | None => inl unrecognized_format
  end.
Proof.
  unfold price_of_text, parse_token. rewrite findall_head.
  destruct (Re.search price_pattern t) as [[tok rest]|]; reflexivity.
Qed.

Lemma price_of_token (tok : string) :
  token_shape tok -> price_of_text tok = parse_token tok.
Proof.
  intros H. now rewrite price_of_text_search, (search_token tok H).
Qed.

(** The four ways [price_of_soup] can end, by the candidate. *)
Lemma price_of_soup_candidate (soup : node) :
  price_of_soup soup =
  match price_text_of soup with
  | Some t => if truthy t then price_of_text t else inl no_price_found
  | None => inl no_price_found
  end.
Proof.
  unfold price_of_soup.
  destruct (price_text_of soup) as [t|]; [| reflexivity].
  destruct (truthy t); reflexivity.
Qed.

Lemma page_scan_truthy (soup : node) (tok : string) :
  page_scan soup = Some tok -> truthy tok = true.
Proof.
  intros H. apply page_scan_some in H as (pre & rest & _ & _ & Hshape).
  now apply token_truthy.
Qed.

(** Without a candidate from the elements, the candidate is the scan's. *)
Lemma price_text_of_scan (soup : node) :
  truthy_opt (price_text_of_ids soup price_ids) = false ->
  price_text_of soup = page_scan soup.
Proof. intros H. unfold price_text_of. now rewrite H. Qed.

Lemma price_text_of_element (soup : node) :
  truthy_opt (price_text_of_ids soup price_ids) = true ->
  price_text_of soup = price_text_of_ids soup price_ids.
Proof. intros H. unfold price_text_of. now rewrite H. Qed.

Lemma parse_token_not_unrecognized (tok : string) :
  parse_token tok <> inl unrecognized_format.
Proof.
  unfold parse_token.
  destruct (Float.of_string (replace comma "" tok)); discriminate.
Qed.

Lemma parse_token_not_no_price (tok : string) :
  parse_token tok <> inl no_price_found.
Proof.
  unfold parse_token.
  destruct (Float.of_string (replace comma "" tok)); discriminate.
Qed.

Lemma price_of_text_not_no_price (t : string) :
  price_of_text t <> inl no_price_found.
Proof.
  rewrite price_of_text_search.
  destruct (Re.search price_pattern t) as [[tok rest]|];
    [apply parse_token_not_no_price | discriminate].
Qed.

End TokenFacts.

Section ExtractorEdges.
Import Str StrFacts ReFacts FloatFacts ExtractFacts TokenFacts.

(** X1.  [fetch_price] ends with "Could not parse price from page." exactly
    when the element loop leaves no candidate (no recognised element with
    text, or a blank one) and the visible text of the page holds neither a
    digit nor a comma. *)
Theorem no_price_found_iff (soup : node) :
  price_of_soup soup = inl no_price_found <->
  truthy_opt (price_text_of_ids soup price_ids) = false /\
  existsb digit_or_comma (Soup.get_text soup) = false.
Proof.
  rewrite price_of_soup_candidate, <- page_scan_none.
  destruct (truthy_opt (price_text_of_ids soup price_ids)) eqn:Hids.
  - rewrite (price_text_of_element soup Hids).
    destruct (price_text_of_ids soup price_ids) as [t|]; [| discriminate].
    cbn [truthy_opt] in Hids. rewrite Hids. split.
    + intros H. now apply price_of_text_not_no_price in H.
    + intros [H _]. discriminate H.
  - rewrite (price_text_of_scan soup Hids).
    destruct (page_scan soup) as [tok|] eqn:Hscan.
    + rewrite (page_scan_truthy soup tok Hscan). split.
      * intros H. now apply price_of_text_not_no_price in H.
      * intros [_ H]. discriminate H.
    + split; auto.
Qed.

(** X2.  [fetch_price] ends with "Price format not recognized." exactly when
    the loop stopped at an element whose stripped text is not empty and
    holds neither a digit nor a comma; a candidate found by the scan of the
    page never gives this error. *)
Theorem unrecognized_format_iff (soup : node) :
  price_of_soup soup = inl unrecognized_format <->
  exists el : node,
    matched_element soup price_ids = Some el /\
    truthy (strip (Soup.get_text el)) = true /\
    existsb digit_or_comma (strip (Soup.get_text el)) = false.
Proof.
  assert (Hscan : match page_scan soup with
                  | Some t =>
                      if truthy t then price_of_text t
                      else inl no_price_found
                  | None => inl no_price_found
                  end <> inl unrecognized_format).
  { destruct (page_scan soup) as [tok|] eqn:Hs; [| discriminate].
    rewrite (page_scan_truthy soup tok Hs).
    apply page_scan_some in Hs as (pre & rest & _ & _ & Hshape).
    rewrite (price_of_token tok Hshape).
    apply parse_token_not_unrecognized. }
  rewrite price_of_soup_candidate, price_text_of_cases.
  destruct (matched_element soup price_ids) as [el|].
  - destruct (truthy (strip (Soup.get_text el))) eqn:Ht.
    + rewrite Ht, price_of_text_search. split.
      * intros H. exists el. repeat split; [exact Ht |].
        apply search_price_none.
        destruct (Re.search price_pattern (strip (Soup.get_text el)))
          as [[tok rest]|]; [| reflexivity].
        now apply parse_token_not_unrecognized in H.
      * intros (el' & Hel & _ & Hnone). injection Hel as <-.
        apply search_price_none in Hnone. now rewrite Hnone.
    + split; [intros H; now apply Hscan in H |].
      intros (el' & Hel & Ht' & _). injection Hel as <-. congruence.
  - split; [intros H; now apply Hscan in H |].
    intros (el' & Hel & _). discriminate Hel.
Qed.

(** X3.  When the candidate comes from the scan of the page, the token the
    scan found is the one that is parsed: the result is the float of the
    token without its commas, or "Price parse failed.". *)
Theorem scan_candidate_is_parsed (soup : node) (tok : string) :
  truthy_opt (price_text_of_ids soup price_ids) = false ->
  page_scan soup = Some tok ->
  price_of_soup soup = parse_token tok.
Proof.
  intros Hids Hscan.
  rewrite price_of_soup_candidate, (price_text_of_scan soup Hids), Hscan.
  rewrite (page_scan_truthy soup tok Hscan).
  apply page_scan_some in Hscan as (pre & rest & _ & _ & Hshape).
  now apply price_of_token.
Qed.

Lemma scan_candidate_is_parsed_witness :
  price_of_soup blank_page = parse_token "4".
Proof.
  apply (scan_candidate_is_parsed blank_page "4"); vm_compute; reflexivity.
Defined.

(** X4.  Whatever precedes the first digit or comma of the candidate, a
    currency sign or a label, does not change the price that is read. *)
Theorem leading_text_is_skipped (pre t : string) :
  existsb digit_or_comma pre = false ->
  price_of_text (pre ++ t) = price_of_text t.
Proof.
  intros H. now rewrite !price_of_text_search, (search_prefix pre t H).
Qed.

Lemma leading_text_is_skipped_witness :
  price_of_text ("Price: $" ++ "19.99") = price_of_text "19.99".
Proof.
  apply (leading_text_is_skipped "Price: $" "19.99"). reflexivity.
Defined.

(** X5.  A run of commas that comes before any digit of the candidate and is
    followed by neither a digit nor a point is taken as the first token, so
    the result is "Price parse failed." whatever follows, a price
    included. *)
Theorem comma_before_price_fails (pre commas rest : string) :
  existsb digit_or_comma pre = false ->
  truthy commas = true ->
  forallb (Ascii.eqb comma) commas = true ->
  breaks_token rest = true ->
  price_of_text (pre ++ commas ++ rest) = inl parse_failure.
Proof.
  intros Hpre Htruthy Hcommas Hbreak.
  assert (Hdc : forallb digit_or_comma commas = true).
  { clear Htruthy. induction commas as [|c cs IH]; [reflexivity |].
    cbn [forallb] in *. apply andb_true_iff in Hcommas as [Hc Hcs].
    apply Ascii.eqb_eq in Hc as <-. now rewrite IH. }
  assert (Hnum : replace comma "" commas = "").
  { clear Htruthy Hdc. induction commas as [|c cs IH]; [reflexivity |].
    cbn [forallb replace] in *. apply andb_true_iff in Hcommas as [Hc Hcs].
    apply Ascii.eqb_eq in Hc as <-. rewrite Ascii.eqb_refl. now apply IH. }
  assert (Hsplit : take_while digit_or_comma (commas ++ rest) = commas /\
                   drop_while digit_or_comma (commas ++ rest) = rest).
  { destruct rest as [|h r].
    - rewrite app_nil_r. now apply take_while_all.
    - apply take_while_stop; [exact Hdc |].
      cbn [breaks_token] in Hbreak.
      apply andb_true_iff in Hbreak as [Hh _]. now apply negb_true_iff. }
  destruct Hsplit as [Htake Hdrop].
  assert (Htok : token_text (commas ++ rest) = commas).
  { unfold token_text. rewrite Htake, Hdrop.
    destruct rest as [|h r]; [now rewrite !app_nil_r |].
    cbn [breaks_token] in Hbreak.
    apply andb_true_iff in Hbreak as [Hh Hd].
    apply negb_true_iff in Hh, Hd.
    rewrite Ascii.eqb_sym in Hd. cbn [skip_dot]. rewrite Hd.
    cbn [take_while].
    destruct (isdigit h) eqn:Edig;
      [apply isdigit_digit_or_comma in Edig; congruence |].
    now rewrite !app_nil_r. }
  rewrite price_of_text_search, (search_prefix pre _ Hpre), search_price.
  destruct commas as [|c cs]; [discriminate Htruthy |].
  cbn [forallb] in Hdc. apply andb_true_iff in Hdc as [Hc _].
  cbn [String.append drop_while]. rewrite Hc. cbn [negb].
  rewrite match_at_price, Hc.
  cbn [String.append] in Htok. rewrite Htok.
  unfold parse_token. rewrite Hnum. reflexivity.
Qed.

Lemma comma_before_price_fails_witness :
  price_of_text ("Hello" ++ "," ++ " only $5.00 today") = inl parse_failure.
Proof.
  apply (comma_before_price_fails "Hello" "," " only $5.00 today");
    reflexivity.
Defined.

(** X6.  The commas of a number are dropped wherever they stand: a
    candidate made of digits and commas, with or without a point and
    digits after them, reads as the same text without the commas. *)
Theorem grouping_commas_are_dropped (a b c : string) :
  forallb digit_or_comma a = true ->
  existsb isdigit a = true ->
  forallb isdigit c = true ->
  (b = "" /\ c = "") \/ b = "." ->
  price_of_text (a ++ b ++ c) = price_of_text (replace comma "" a ++ b ++ c).
Proof.
  intros Ha Hdig Hc Hb.
  destruct (replace_commas a Ha) as [Hd Ht]. rewrite Hdig in Ht.
  assert (Hta : truthy a = true).
  { destruct a; [discriminate Hdig | reflexivity]. }
  assert (Hd' : forallb digit_or_comma (replace comma "" a) = true).
  { revert Hd. generalize (replace comma "" a). clear.
    induction s as [|x s IH]; [reflexivity |].
    cbn [forallb]. intros H. apply andb_true_iff in H as [Hx Hs].
    now rewrite (isdigit_digit_or_comma x Hx), IH. }
  rewrite (price_of_token (a ++ b ++ c))
    by (exists a, b, c; repeat split; assumption).
  rewrite (price_of_token (replace comma "" a ++ b ++ c))
    by (exists (replace comma "" a), b, c; repeat split; assumption).
  unfold parse_token.
  rewrite (numeric_of_token a b c Ha Hc Hb).
  rewrite (numeric_of_token (replace comma "" a) b c Hd' Hc Hb).
  rewrite (replace_absent comma "" (replace comma "" a))
    by now apply digits_no_comma.
  reflexivity.
Qed.

Lemma grouping_commas_are_dropped_witness :
  price_of_text ("1,2,34" ++ "." ++ "50") =
  price_of_text (replace comma "" "1,2,34" ++ "." ++ "50").
Proof.
  apply (grouping_commas_are_dropped "1,2,34" "." "50");
    [reflexivity | reflexivity | reflexivity | now right].
Defined.

End ExtractorEdges.

(** ** The configuration checks *)

Module ConfigFacts.
Import Str StrFacts DispatchFacts.

Lemma twilio_client_missing (w : world) :
  truthy_opt (config w "SID") = false \/
  truthy_opt (config w "AUTH") = false ->
  _twilio_client w = inl credentials_missing.
Proof.
  unfold _twilio_client.
  destruct (config w "SID") as [sid|], (config w "AUTH") as [auth|];
    cbn [truthy_opt]; try reflexivity.
  intros [-> | ->]; [reflexivity |]. now rewrite orb_true_r.
Qed.

Lemma twilio_client_present (w : world) :
  truthy_opt (config w "SID") = true ->
  truthy_opt (config w "AUTH") = true ->
  exists c, _twilio_client w = inr c /\
            config w "SID" = Some (account_sid c) /\
            config w "AUTH" = Some (auth_token c).
Proof.
  unfold _twilio_client.
  destruct (config w "SID") as [sid|], (config w "AUTH") as [auth|];
    cbn [truthy_opt]; try discriminate.
  intros -> ->. now exists (Client sid auth).
Qed.

Lemma twilio_client_error (w : world) (e : exn) :
  _twilio_client w = inl e -> e = credentials_missing.
Proof.
  unfold _twilio_client.
  destruct (config w "SID") as [sid|], (config w "AUTH") as [auth|];
    try (intros H; now injection H).
  destruct (negb (truthy sid) || negb (truthy auth));
    [intros H; now injection H | discriminate].
Qed.

Lemma get_from_number_spec (w : world) :
  _get_from_number w =
  match config w "FROM_WHATSAPP" with
  | Some f => if truthy f then inr f else inl sender_missing
  | None => inl sender_missing
  end.
Proof.
  unfold _get_from_number.
  destruct (config w "FROM_WHATSAPP") as [f|]; [| reflexivity].
  destruct (truthy f); reflexivity.
Qed.

Lemma get_from_number_error (w : world) (e : exn) :
  _get_from_number w = inl e -> e = sender_missing.
Proof.
  rewrite get_from_number_spec.
  destruct (config w "FROM_WHATSAPP") as [f|];
    [destruct (truthy f); [discriminate |] |]; intros H; now injection H.
Qed.

Lemma resolve_recipient_error (w : world) (o : option string) (e : exn) :
  _resolve_recipient w o = inl e -> e = recipient_missing.
Proof.
  rewrite resolve_recipient_chosen.
  destruct (chosen_recipient w o) as [t|];
    [destruct (truthy t); [discriminate |] |]; intros H; now injection H.
Qed.

Lemma resolve_recipient_present (w : world) (o : option string) :
  truthy_opt (chosen_recipient w o) = true ->
  exists t, _resolve_recipient w o = inr t.
Proof.
  rewrite resolve_recipient_chosen.
  destruct (chosen_recipient w o) as [r|]; [| discriminate].
  cbn [truthy_opt]. intros ->. eauto.
Qed.

(** An override that is not empty and carries the prefix resolves to
    itself. *)
Lemma resolve_prefixed (w : world) (r : string) :
  truthy r = true ->
  startswith "whatsapp:" r = true ->
  _resolve_recipient w (Some r) = inr r.
Proof.
  intros Hr Hp. rewrite resolve_recipient_chosen.
  unfold chosen_recipient, or_else. cbn [truthy_opt].
  rewrite Hr. now rewrite Hr, Hp.
Qed.

(** [send_whatsapp], by what the three checks give. *)
Lemma send_whatsapp_cases (w : world) (body : string) (o : option string) :
  send_whatsapp w body o =
  match _twilio_client w with
  | inl e => (inl e, [])
  | inr c =>
      match _resolve_recipient w o with
      | inl e => (inl e, [])
      | inr t =>
          match _get_from_number w with
          | inl e => (inl e, [])
          | inr f =>
              (match transport w c body f t with
               | inr sid => inr sid
               | inl msg => inl (TwilioRestException msg)
               end, [Create body f t])
          end
      end
  end.
Proof.
  unfold send_whatsapp.
  destruct (_twilio_client w) as [e|c]; rewrite bind_lift; [reflexivity |].
  destruct (_resolve_recipient w o) as [e|t]; rewrite bind_lift;
    [reflexivity |].
  destruct (_get_from_number w) as [e|f]; rewrite bind_lift;
    [reflexivity |].
  unfold bind, emit. destruct (transport w c body f t); reflexivity.
Qed.

End ConfigFacts.

Section DispatcherEdges.
Import Str StrFacts DispatchFacts ConfigFacts.

(** X7.  [send_whatsapp] checks the credentials, then the recipient, then
    the sender, and reports the first that is missing (absent or empty)
    without calling the transport: missing credentials hide a missing
    recipient, and a missing recipient hides a missing sender.  With all
    four settings present the call is made. *)
Theorem send_whatsapp_error_precedence (w : world) (body : string)
    (to_override : option string) :
  (truthy_opt (config w "SID") = false \/
   truthy_opt (config w "AUTH") = false ->
   send_whatsapp w body to_override = (inl credentials_missing, [])) /\
  (truthy_opt (config w "SID") = true ->
   truthy_opt (config w "AUTH") = true ->
   truthy_opt (chosen_recipient w to_override) = false ->
   send_whatsapp w body to_override = (inl recipient_missing, [])) /\
  (truthy_opt (config w "SID") = true ->
   truthy_opt (config w "AUTH") = true ->
   truthy_opt (chosen_recipient w to_override) = true ->
   truthy_opt (config w "FROM_WHATSAPP") = false ->
   send_whatsapp w body to_override = (inl sender_missing, [])) /\
  (truthy_opt (config w "SID") = true ->
   truthy_opt (config w "AUTH") = true ->
   truthy_opt (chosen_recipient w to_override) = true ->
   truthy_opt (config w "FROM_WHATSAPP") = true ->
   exists c from_number to_number,
     configured w to_override c from_number to_number /\
     trace (send_whatsapp w body to_override)
     = [Create body from_number to_number]).
Proof.
  rewrite send_whatsapp_cases. split; [| split; [| split]].
  - intros H. now rewrite (twilio_client_missing w H).
  - intros Hsid Hauth Hto.
    destruct (twilio_client_present w Hsid Hauth) as (c & -> & _).
    now rewrite (resolve_recipient_missing w to_override Hto).
  - intros Hsid Hauth Hto Hfrom.
    destruct (twilio_client_present w Hsid Hauth) as (c & -> & _).
    destruct (resolve_recipient_present w to_override Hto) as [t ->].
    rewrite get_from_number_spec.
    destruct (config w "FROM_WHATSAPP") as [f|]; [| reflexivity].
    cbn [truthy_opt] in Hfrom. now rewrite Hfrom.
  - intros Hsid Hauth Hto Hfrom.
    destruct (twilio_client_present w Hsid Hauth) as (c & Hc & _).
    destruct (resolve_recipient_present w to_override Hto) as [t Ht].
    assert (Hf : exists f, _get_from_number w = inr f).
    { rewrite get_from_number_spec.
      destruct (config w "FROM_WHATSAPP") as [f|]; [| discriminate].
      cbn [truthy_opt] in Hfrom. rewrite Hfrom. eauto. }
    destruct Hf as [f Hf]. exists c, f, t.
    split; [now repeat split |]. now rewrite Hc, Ht, Hf.
Qed.

Lemma send_whatsapp_error_precedence_witness :
  send_whatsapp (world_of ∅ Unreachable) "body" None
    = (inl credentials_missing, []) /\
  send_whatsapp (world_of no_recipient_environ Unreachable) "body" (Some "")
    = (inl recipient_missing, []) /\
  send_whatsapp
    (world_of (<["SID" := "AC1"]> (<["AUTH" := "secret"]> ∅)) Unreachable)
    "body" (Some "+300")
    = (inl sender_missing, []) /\
  (exists c from_number to_number,
     configured (world_of full_environ Unreachable) None
       c from_number to_number /\
     trace (send_whatsapp (world_of full_environ Unreachable) "body" None)
     = [Create "body" from_number to_number]).
Proof.
  split; [| split; [| split]].
  - apply (proj1 (send_whatsapp_error_precedence
                    (world_of ∅ Unreachable) "body" None)).
    left. reflexivity.
  - apply (proj1 (proj2 (send_whatsapp_error_precedence
                    (world_of no_recipient_environ Unreachable)
                    "body" (Some ""))));
      vm_compute; reflexivity.
  - apply (proj1 (proj2 (proj2 (send_whatsapp_error_precedence
                    (world_of (<["SID" := "AC1"]> (<["AUTH" := "secret"]> ∅))
                       Unreachable)
                    "body" (Some "+300")))));
      vm_compute; reflexivity.
  - apply (proj2 (proj2 (proj2 (send_whatsapp_error_precedence
                    (world_of full_environ Unreachable) "body" None))));
      vm_compute; reflexivity.
Defined.

(** X8.  In every delivery call the body is the one handed to
    [send_whatsapp]; the sender is the configured [FROM_WHATSAPP], not
    empty and passed on as it is, without any prefix added; the recipient
    starts with [whatsapp:] and is the chosen recipient, prefixed or not. *)
Theorem delivery_addressing (w : world) (body : string)
    (to_override : option string) (body' from_number to_number : string) :
  List.In (Create body' from_number to_number)
          (trace (send_whatsapp w body to_override)) ->
  body' = body /\
  config w "FROM_WHATSAPP" = Some from_number /\
  truthy from_number = true /\
  startswith "whatsapp:" to_number = true /\
  exists r,
    chosen_recipient w to_override = Some r /\
    (to_number = r \/ to_number = "whatsapp:" ++ r).
Proof.
  rewrite send_whatsapp_cases.
  destruct (_twilio_client w) as [e|c]; [intros [] |].
  rewrite resolve_recipient_chosen, get_from_number_spec.
  destruct (chosen_recipient w to_override) as [r|]; [| intros []].
  destruct (truthy r); [| intros []].
  destruct (config w "FROM_WHATSAPP") as [f|]; [| intros []].
  destruct (truthy f) eqn:Hf; [| intros []].
  cbn [trace snd List.In]. intros [H | []]. injection H as <- <- <-.
  repeat split; [exact Hf | |].
  - destruct (startswith "whatsapp:" r) eqn:Hp;
      [exact Hp | exact (prefix_app "whatsapp:" r)].
  - exists r. split; [reflexivity |].
    destruct (startswith "whatsapp:" r); auto.
Qed.

Lemma delivery_addressing_witness :
  "body" = "body" /\
  config (world_of full_environ Unreachable) "FROM_WHATSAPP"
    = Some "whatsapp:+100" /\
  truthy "whatsapp:+100" = true /\
  startswith "whatsapp:" "whatsapp:+200" = true /\
  exists r,
    chosen_recipient (world_of full_environ Unreachable) None = Some r /\
    ("whatsapp:+200" = r \/ "whatsapp:+200" = "whatsapp:" ++ r).
Proof.
  apply (delivery_addressing (world_of full_environ Unreachable) "body" None
           "body" "whatsapp:+100" "whatsapp:+200").
  vm_compute. left. reflexivity.
Defined.

(** X9.  A resolved recipient is a fixed point of the resolver: handed
    back as the override, in any environment, it resolves to itself, so the
    prefix is never added twice and a usable override always wins over the
    default. *)
Theorem resolved_recipient_is_fixed (w w' : world)
    (to_override : option string) (r : string) :
  _resolve_recipient w to_override = inr r ->
  _resolve_recipient w' (Some r) = inr r.
Proof.
  rewrite resolve_recipient_chosen.
  destruct (chosen_recipient w to_override) as [t|]; [| discriminate].
  destruct (truthy t) eqn:Ht; [| discriminate].
  intros H. injection H as <-.
  apply resolve_prefixed; destruct (startswith "whatsapp:" t) eqn:E;
    [exact Ht | reflexivity | exact E | exact (prefix_app "whatsapp:" t)].
Qed.

Lemma resolved_recipient_is_fixed_witness :
  _resolve_recipient (world_of ∅ Unreachable) (Some "whatsapp:+200")
  = inr "whatsapp:+200".
Proof.
  apply (resolved_recipient_is_fixed (world_of full_environ Unreachable)
           (world_of ∅ Unreachable) None "whatsapp:+200").
  vm_compute. reflexivity.
Defined.

End DispatcherEdges.

(** ** The whole request *)

Module RequestFacts.
Import Str StrFacts ReFacts FloatFacts ExtractFacts TokenFacts DispatchFacts
       ConfigFacts NotifyFacts.

(** [notify], by what [fetch_price] and the comparison give. *)
Lemma notify_cases (w : world) (p : NotifyRequest) :
  notify w p =
  match fetch_price w (url p) with
  | inl e => (inl e, [])
  | inr price =>
      if Float.leb price (target_price p) then
        let send :=
          send_whatsapp w
            (message_body (url p) price (target_price p) true)
            (send_to p) in
        (match outcome send with
         | inl e => inl e
         | inr sid => inr (sent_response sid price)
         end,
         (suspension (delay_minutes p) ++ trace send)%list)
      else (inr (not_triggered_response price), [])
  end.
Proof.
  destruct (fetch_price w (url p)) as [e|price] eqn:Hf.
  - now apply notify_fetch_error.
  - rewrite (notify_priced w p price Hf).
    destruct (Float.leb price (target_price p)); [| reflexivity].
    unfold dispatch_branch. rewrite delayed_whatsapp_unfold.
    unfold bind, ret, outcome, trace. cbn [fst snd].
    destruct (send_whatsapp w _ (send_to p)) as [[e|sid] t]; cbn [fst snd];
      [reflexivity | now rewrite List.app_nil_r].
Qed.




Lemma in_suspension (delay s : Z) :
  List.In (Sleep s) (suspension delay) -> delay <> 0 /\ s = delay * 60.
Proof.
  unfold suspension. destruct (delay =? 0) eqn:E; [intros [] |].
  intros [H | []]. injection H as <-. split; [lia | reflexivity].
Qed.

Lemma create_not_in_suspension (delay : Z) (b f t : string) :
  ~ List.In (Create b f t) (suspension delay).
Proof.
  unfold suspension. destruct (delay =? 0); [intros [] |].
  intros [H | []]. discriminate H.
Qed.

Lemma sleep_not_in_send (w : world) (body : string) (o : option string)
    (s : Z) :
  ~ List.In (Sleep s) (trace (send_whatsapp w body o)).
Proof.
  rewrite send_whatsapp_cases.
  destruct (_twilio_client w) as [e|c]; [intros [] |].
  destruct (_resolve_recipient w o) as [e|t]; [intros [] |].
  destruct (_get_from_number w) as [e|f]; [intros [] |].
  intros [H | []]. discriminate H.
Qed.

Lemma create_in_send (w : world) (body : string) (o : option string)
    (b f t : string) :
  List.In (Create b f t) (trace (send_whatsapp w body o)) -> b = body.
Proof.
  rewrite send_whatsapp_cases.
  destruct (_twilio_client w) as [e|c]; [intros [] |].
  destruct (_resolve_recipient w o) as [e|t']; [intros [] |].
  destruct (_get_from_number w) as [e|f']; [intros [] |].
  intros [H | []]. now injection H.
Qed.

Lemma contains_prefix (sub b : string) : contains sub (sub ++ b) = true.
Proof.
  destruct sub as [|c sub].
  - destruct b; reflexivity.
  - change (contains (String c sub) (String c sub ++ b))
      with (String.prefix (String c sub) (String c sub ++ b)
            || contains (String c sub) (sub ++ b)).
    now rewrite prefix_app.
Qed.

(** Whole numbers below [2^53] are floats of the form [n * 2^k * 2^(-k)]. *)
Lemma whole_exact (n : Z) :
  0 <= n < 2 ^ 53 ->
  exists k, 0 <= k /\ whole n = Finite (n * 2 ^ k) (- k).
Proof.
  intros [Hlo Hhi]. unfold whole, Float.of_ratio.
  destruct (n <=? 0) eqn:Ez.
  - apply Z.leb_le in Ez. assert (n = 0) as -> by lia.
    exists 1074. split; [lia | reflexivity].
  - apply Z.leb_gt in Ez.
    pose proof (Z.log2_spec n Ez) as [Hl1 Hl2].
    pose proof (Z.log2_nonneg n) as Hl0.
    assert (Hl53 : Z.log2 n < 53) by (apply Z.log2_lt_pow2; lia).
    set (l := Z.log2 n) in *.
    assert (Hilog : Float.ilog2 n 1 = l).
    { unfold Float.ilog2, Float.scaled_leb. fold l.
      change (Z.log2 1) with 0. rewrite Z.sub_0_r.
      rewrite Z.min_r by lia. rewrite !Z.sub_0_r, Z.mul_1_l.
      change (2 ^ 0) with 1. rewrite Z.mul_1_r.
      destruct (2 ^ l <=? n) eqn:E; [reflexivity |].
      apply Z.leb_gt in E. lia. }
    rewrite Hilog. rewrite Z.max_l by lia.
    assert (Hround : Float.round_half_even n 1 (l - 52) = n * 2 ^ (52 - l)).
    { unfold Float.round_half_even.
      rewrite (Z.max_r 0 (- (l - 52))) by lia.
      rewrite (Z.max_l 0 (l - 52)) by lia.
      change (1 * 2 ^ 0) with 1.
      rewrite Z.div_1_r, Z.mod_1_r.
      replace (- (l - 52)) with (52 - l) by lia. reflexivity. }
    rewrite Hround.
    assert (Hm : n * 2 ^ (52 - l) < 2 ^ 53).
    { replace 53 with ((l + 1) + (52 - l)) by lia.
      rewrite Z.pow_add_r by lia.
      apply Z.mul_lt_mono_pos_r; [apply Z.pow_pos_nonneg; lia | exact Hl2]. }
    destruct (n * 2 ^ (52 - l) =? 2 ^ 53) eqn:E;
      [apply Z.eqb_eq in E; lia |].
    destruct (971 <? l - 52) eqn:E2; [apply Z.ltb_lt in E2; lia |].
    exists (52 - l). split; [lia |].
    replace (- (52 - l)) with (l - 52) by lia. reflexivity.
Qed.

Lemma finite_leb_scaled (a b ka kb : Z) :
  0 <= ka -> 0 <= kb ->
  Float.finite_leb (a * 2 ^ ka) (- ka) (b * 2 ^ kb) (- kb) = (a <=? b).
Proof.
  intros Ha Hb. unfold Float.finite_leb.
  set (e := Z.min (- ka) (- kb)).
  assert (He : e <= - ka /\ e <= - kb) by (unfold e; lia).
  rewrite <- !Z.mul_assoc, <- !Z.pow_add_r by lia.
  replace (ka + (- ka - e)) with (- e) by lia.
  replace (kb + (- kb - e)) with (- e) by lia.
  assert (Hpos : 0 < 2 ^ (- e)) by (apply Z.pow_pos_nonneg; lia).
  destruct (a <=? b) eqn:E.
  - apply Z.leb_le in E. apply Z.leb_le.
    now apply Z.mul_le_mono_nonneg_r; [lia |].
  - apply Z.leb_gt in E. apply Z.leb_gt.
    now apply Z.mul_lt_mono_pos_r.
Qed.

End RequestFacts.

Section RequestEdges.
Import Str StrFacts ReFacts FloatFacts ExtractFacts TokenFacts DispatchFacts
       ConfigFacts NotifyFacts RequestFacts.

(** X10.  [notify] returns a response in two cases only.  Either the price
    is above the target: the response is the "not_triggered" one and nothing
    was done.  Or the price is at most the target, the configuration is
    complete and the transport accepted the message: the response is the
    "sent" one, it carries the [sid] the transport gave for that very
    message, and the trace is the suspension followed by that one delivery
    call.  A response "sent" is never returned without a delivery. *)
Theorem returned_response_characterised (w : world) (p : NotifyRequest)
    (r : response) :
  outcome (notify w p) = inr r ->
  exists price : pyfloat,
    fetch_price w (url p) = inr price /\
    ((Float.leb price (target_price p) = false /\
      r = not_triggered_response price /\
      trace (notify w p) = []) \/
     (Float.leb price (target_price p) = true /\
      exists (sid : string) (c : client) (from_number to_number : string),
        configured w (send_to p) c from_number to_number /\
        transport w c (message_body (url p) price (target_price p) true)
          from_number to_number = inr sid /\
        r = sent_response sid price /\
        trace (notify w p) =
          (suspension (delay_minutes p) ++
           [Create (message_body (url p) price (target_price p) true)
                   from_number to_number])%list)).
Proof.
  rewrite notify_cases.
  destruct (fetch_price w (url p)) as [e|price]; [discriminate |].
  intros H. exists price. split; [reflexivity |].
  destruct (Float.leb price (target_price p)).
  - right. split; [reflexivity |]. cbv zeta in H |- *.
    rewrite send_whatsapp_cases in H.
    rewrite send_whatsapp_cases.
    destruct (_twilio_client w) as [e|c] eqn:Hc; [discriminate H |].
    destruct (_resolve_recipient w (send_to p)) as [e|t] eqn:Ht;
      [discriminate H |].
    destruct (_get_from_number w) as [e|f] eqn:Hf; [discriminate H |].
    cbn [outcome trace fst snd] in H |- *.
    destruct (transport w c _ f t) as [msg|sid] eqn:Htr; [discriminate H |].
    injection H as <-. exists sid, c, f, t.
    repeat split; assumption.
  - left. injection H as <-. auto.
Qed.

Lemma returned_response_characterised_witness :
  exists price : pyfloat,
    fetch_price (world_of full_environ (Response 200 sale_page))
      (url (request f20 2 None)) = inr price /\
    ((Float.leb price (target_price (request f20 2 None)) = false /\
      sent_response "SM1" f19_99 = not_triggered_response price /\
      trace (notify (world_of full_environ (Response 200 sale_page))
               (request f20 2 None)) = []) \/
     (Float.leb price (target_price (request f20 2 None)) = true /\
      exists (sid : string) (c : client) (from_number to_number : string),
        configured (world_of full_environ (Response 200 sale_page))
          (send_to (request f20 2 None)) c from_number to_number /\
        transport (world_of full_environ (Response 200 sale_page)) c
          (message_body (url (request f20 2 None)) price
             (target_price (request f20 2 None)) true)
          from_number to_number = inr sid /\
        sent_response "SM1" f19_99 = sent_response sid price /\
        trace (notify (world_of full_environ (Response 200 sale_page))
                 (request f20 2 None)) =
          (suspension (delay_minutes (request f20 2 None)) ++
           [Create (message_body (url (request f20 2 None)) price
                      (target_price (request f20 2 None)) true)
                   from_number to_number])%list)).
Proof.
  apply (returned_response_characterised
           (world_of full_environ (Response 200 sale_page))
           (request f20 2 None) (sent_response "SM1" f19_99)).
  vm_compute. reflexivity.
Defined.



(** X12.  Whatever the world and the request, [notify] does nothing, or
    only suspends, or suspends (when there is a delay) and then makes one
    delivery call: it never delivers twice and never suspends after a
    delivery. *)
Theorem notify_trace_shape (w : world) (p : NotifyRequest) :
  (trace (notify w p) = [] \/
   trace (notify w p) = suspension (delay_minutes p) \/
   exists body from_number to_number : string,
     trace (notify w p) =
     (suspension (delay_minutes p) ++
      [Create body from_number to_number])%list) /\
  (length (deliveries (trace (notify w p))) <= 1)%nat.
Proof.
  rewrite notify_cases.
  destruct (fetch_price w (url p)) as [e|price];
    [split; [now left | cbn; lia] |].
  destruct (Float.leb price (target_price p));
    [| split; [now left | cbn; lia]].
  cbv zeta. rewrite send_whatsapp_cases.
  cbn [trace snd]. rewrite deliveries_suspension.
  destruct (_twilio_client w) as [e|c];
    [rewrite List.app_nil_r; split; [auto | cbn; lia] |].
  destruct (_resolve_recipient w (send_to p)) as [e|t];
    [rewrite List.app_nil_r; split; [auto | cbn; lia] |].
  destruct (_get_from_number w) as [e|f];
    [rewrite List.app_nil_r; split; [auto | cbn; lia] |].
  cbn [snd]. split; [| vm_compute; lia]. right. right. eauto.
Qed.

(** X13.  For a request that meets the constraints of the request model
    (delay from 0 to 1440 minutes), a suspension asked for by [notify]
    lasts sixty times the delay, in seconds: at least one minute and at most
    one day. *)
Theorem suspension_is_bounded (w : world) (p : NotifyRequest) (s : Z) :
  valid_request p ->
  List.In (Sleep s) (trace (notify w p)) ->
  s = delay_minutes p * 60 /\ 60 <= s <= 86400.
Proof.
  intros [_ Hdelay]. rewrite notify_cases.
  destruct (fetch_price w (url p)) as [e|price]; [intros [] |].
  destruct (Float.leb price (target_price p)); [| intros []].
  cbv zeta. cbn [trace snd]. intros Hin.
  apply List.in_app_or in Hin as [Hin | Hin].
  - apply in_suspension in Hin as [Hne ->]. split; [reflexivity | lia].
  - now apply sleep_not_in_send in Hin.
Qed.

Lemma suspension_is_bounded_witness :
  120 = delay_minutes (request f20 2 None) * 60 /\ 60 <= 120 <= 86400.
Proof.
  apply (suspension_is_bounded
           (world_of full_environ (Response 200 sale_page))
           (request f20 2 None) 120).
  - split; [vm_compute; reflexivity | cbn; lia].
  - vm_compute. left. reflexivity.
Defined.

(** X14.  The configuration is looked at only after the suspension: when the
    price is at most the target, the delay is not zero and a part of the
    configuration is missing, [notify] asks for the whole suspension and
    only then raises the configuration error, without a delivery call. *)
Theorem misconfiguration_reported_after_delay (w : world)
    (p : NotifyRequest) (price : pyfloat) :
  fetch_price w (url p) = inr price ->
  Float.leb price (target_price p) = true ->
  delay_minutes p <> 0 ->
  (forall c from_number to_number,
     ~ configured w (send_to p) c from_number to_number) ->
  trace (notify w p) = [Sleep (delay_minutes p * 60)] /\
  exists e, outcome (notify w p) = inl e /\ List.In e configuration_errors.
Proof.
  intros Hfetch Hle Hdelay Hnot.
  rewrite notify_cases, Hfetch, Hle. cbv zeta.
  assert (Hsusp : suspension (delay_minutes p)
                  = [Sleep (delay_minutes p * 60)]).
  { unfold suspension. destruct (delay_minutes p =? 0) eqn:E;
      [apply Z.eqb_eq in E; contradiction | reflexivity]. }
  rewrite Hsusp, send_whatsapp_cases. unfold configuration_errors.
  destruct (_twilio_client w) as [e|c] eqn:Hc.
  { apply twilio_client_error in Hc as ->.
    split; [reflexivity |]. eexists. split; [reflexivity | cbn; auto]. }
  destruct (_resolve_recipient w (send_to p)) as [e|t] eqn:Ht.
  { apply resolve_recipient_error in Ht as ->.
    split; [reflexivity |]. eexists. split; [reflexivity | cbn; auto]. }
  destruct (_get_from_number w) as [e|f] eqn:Hf.
  { apply get_from_number_error in Hf as ->.
    split; [reflexivity |]. eexists. split; [reflexivity | cbn; auto]. }
  exfalso. apply (Hnot c f t). now repeat split.
Qed.

Lemma misconfiguration_reported_after_delay_witness :
  trace (notify (world_of no_recipient_environ (Response 200 sale_page))
           (request f20 2 None))
  = [Sleep (delay_minutes (request f20 2 None) * 60)] /\
  exists e,
    outcome (notify (world_of no_recipient_environ (Response 200 sale_page))
               (request f20 2 None)) = inl e /\
    List.In e configuration_errors.
Proof.
  apply (misconfiguration_reported_after_delay
           (world_of no_recipient_environ (Response 200 sale_page))
           (request f20 2 None) f19_99).
  - vm_compute. reflexivity.
  - vm_compute. reflexivity.
  - cbn. lia.
  - intros c f t (_ & Ht & _). vm_compute in Ht. discriminate Ht.
Defined.

(** X15.  Every body that [notify] delivers contains the URL of the request
    as it was given, the price and the target as Python writes them, and
    the line "Triggered: yes". *)
Theorem delivered_body_contains_literals (w : world) (p : NotifyRequest)
    (price : pyfloat) (body from_number to_number : string) :
  fetch_price w (url p) = inr price ->
  List.In (Create body from_number to_number) (trace (notify w p)) ->
  contains (url p) body = true /\
  contains (Float.repr price) body = true /\
  contains (Float.repr (target_price p)) body = true /\
  contains "Triggered: yes" body = true.
Proof.
  intros Hfetch. rewrite notify_cases, Hfetch.
  destruct (Float.leb price (target_price p)); [| intros []].
  cbv zeta. cbn [trace snd]. intros Hin.
  apply List.in_app_or in Hin as [Hin | Hin];
    [now apply create_not_in_suspension in Hin |].
  apply create_in_send in Hin as ->. unfold message_body.
  repeat split.
  - apply contains_app_r, contains_prefix.
  - do 4 apply contains_app_r. apply contains_prefix.
  - do 7 apply contains_app_r. apply contains_prefix.
  - do 9 apply contains_app_r.
    change ("Triggered: " ++ "yes") with ("Triggered: yes" ++ "").
    apply contains_prefix.
Qed.

Lemma delivered_body_contains_literals_witness :
  contains (url (request f20 0 None))
    (message_body (url (request f20 0 None)) f19_99 f20 true) = true /\
  contains (Float.repr f19_99)
    (message_body (url (request f20 0 None)) f19_99 f20 true) = true /\
  contains (Float.repr (target_price (request f20 0 None)))
    (message_body (url (request f20 0 None)) f19_99 f20 true) = true /\
  contains "Triggered: yes"
    (message_body (url (request f20 0 None)) f19_99 f20 true) = true.
Proof.
  apply (delivered_body_contains_literals
           (world_of full_environ (Response 200 sale_page))
           (request f20 0 None) f19_99
           (message_body (url (request f20 0 None)) f19_99 f20 true)
           "whatsapp:+100" "whatsapp:+200").
  - vm_compute. reflexivity.
  - vm_compute. left. reflexivity.
Defined.

(** X16.  A price of zero dispatches for every request that meets the
    constraints of the request model, the target being greater than
    zero. *)
Theorem zero_price_always_dispatches (w : world) (p : NotifyRequest) :
  valid_request p ->
  fetch_price w (url p) = inr Float.zero ->
  notify w p = dispatch_branch w p Float.zero.
Proof.
  intros [Htarget _] Hfetch.
  rewrite (notify_priced w p Float.zero Hfetch).
  assert (Hle : Float.leb Float.zero (target_price p) = true).
  { apply gtb_leb in Htarget.
    destruct (target_price p) as [m e|]; [| reflexivity].
    unfold Float.zero, Float.leb, Float.finite_leb in *.
    rewrite Z.min_comm in Htarget.
    set (k := Z.min (-1074) e) in *.
    rewrite Z.mul_0_l in *. apply Z.leb_gt in Htarget. apply Z.leb_le.
    lia. }
  now rewrite Hle.
Qed.

Lemma zero_price_always_dispatches_witness :
  notify (world_of full_environ
            (Response 200 (page [price_span "priceblock_ourprice" "$0.00"])))
         (request f20 0 None)
  = dispatch_branch
      (world_of full_environ
         (Response 200 (page [price_span "priceblock_ourprice" "$0.00"])))
      (request f20 0 None) Float.zero.
Proof.
  apply (zero_price_always_dispatches
           (world_of full_environ
              (Response 200
                 (page [price_span "priceblock_ourprice" "$0.00"])))
           (request f20 0 None)).
  - split; [vm_compute; reflexivity | cbn; lia].
  - vm_compute. reflexivity.
Defined.

(** X17.  A candidate made of digits only is read as the float of the whole
    number it writes, and whole numbers below [2^53] are compared as the
    integers they are: for such a price and such a target the comparison of
    [notify] is exact. *)
Theorem whole_number_prices_are_exact :
  (forall d : string,
     truthy d = true -> forallb isdigit d = true ->
     price_of_text d = inr (whole (Float.decimal_value 0 d))) /\
  (forall a b : Z,
     0 <= a < 2 ^ 53 -> 0 <= b < 2 ^ 53 ->
     Float.leb (whole a) (whole b) = (a <=? b)).
Proof.
  split.
  - intros d Ht Hd.
    assert (Hshape : token_shape d).
    { exists d, "", "". repeat split; [now rewrite app_nil_r | exact Ht | |
                                      now left].
      clear Ht. induction d as [|x d IH]; [reflexivity |].
      cbn [forallb] in *. apply andb_true_iff in Hd as [Hx Hd].
      now rewrite (isdigit_digit_or_comma x Hx), IH. }
    rewrite (price_of_token d Hshape). unfold parse_token.
    rewrite (replace_absent comma "" d) by now apply digits_no_comma.
    pose proof (of_string_parts d "" "" Hd eq_refl
                  (or_introl (conj eq_refl eq_refl))) as Hparse.
    change ("" ++ "") with "" in Hparse. rewrite !app_nil_r in Hparse.
    rewrite Hparse, Ht. reflexivity.
  - intros a b Ha Hb.
    destruct (whole_exact a Ha) as (ka & Hka & ->).
    destruct (whole_exact b Hb) as (kb & Hkb & ->).
    now apply finite_leb_scaled.
Qed.

Lemma whole_number_prices_are_exact_witness :
  price_of_text "1250" = inr (whole (Float.decimal_value 0 "1250")) /\
  Float.leb (whole 1250) (whole 1300) = (1250 <=? 1300).
Proof.
  split.
  - apply (proj1 whole_number_prices_are_exact "1250"); reflexivity.
  - apply (proj2 whole_number_prices_are_exact 1250 1300); lia.
Defined.



End RequestEdges.
